(** * The request handlers of [api/views.py]

    A shallow embedding of the calculator view [calculate] and of the
    echo view [process_data], together with the part of the Python run
    time they rely on: JSON-shaped values, exceptions, the [float]
    constructor, [dict.get] and IEEE-754 double arithmetic.

    Python's [float] is a binary64 number.  It is modelled by
    [spec_float], the executable IEEE-754 specification of the standard
    library, at precision 53 and maximal exponent 1024. *)

From Stdlib Require Import ZArith QArith Qpower List String Ascii Bool Lia.
From Stdlib Require Import SpecFloat.
Import ListNotations.

Set Warnings "-register-all".
Set Warnings "-automation".

Local Open Scope string_scope.
Local Open Scope list_scope.
Local Open Scope Z_scope.

(** ** Python values, exceptions and results *)

Module Py.

(** The values a parsed request body is made of: what [json.loads]
    produces (a form-encoded body is a dictionary of strings).  A
    dictionary keeps its items in insertion order. *)
Inductive pyval : Type :=
| PNone
| PBool (b : bool)
| PInt (z : Z)
| PFloat (f : spec_float)
| PStr (s : string)
| PList (l : list pyval)
| PDict (d : list (string * pyval)).

(** The exception classes that can be raised on the modelled paths.
    [JSONDecodeError] and [UnicodeDecodeError] are subclasses of
    [ValueError]; [OverflowError] and [ZeroDivisionError] are
    subclasses of [ArithmeticError], not of [ValueError].
    [ParseError] and [UnsupportedMediaType] are the exceptions with
    which the REST framework refuses a request body it cannot parse;
    they are subclasses of its [APIException] and of neither
    [ValueError] nor [TypeError]. *)
Inductive exn : Type :=
| ValueError
| TypeError
| OverflowError
| ZeroDivisionError
| AttributeError
| JSONDecodeError
| UnicodeDecodeError
| ParseError
| UnsupportedMediaType.

Definition exn_eqb (a b : exn) : bool :=
  match a, b with
  | ValueError, ValueError | TypeError, TypeError
  | OverflowError, OverflowError | ZeroDivisionError, ZeroDivisionError
  | AttributeError, AttributeError | JSONDecodeError, JSONDecodeError
  | UnicodeDecodeError, UnicodeDecodeError
  | ParseError, ParseError
  | UnsupportedMediaType, UnsupportedMediaType => true
  | _, _ => false
  end.

(** [issubclass e cls] *)
Definition issubclass (e cls : exn) : bool :=
  exn_eqb e cls ||
  match e, cls with
  | JSONDecodeError, ValueError | UnicodeDecodeError, ValueError => true
  | _, _ => false
  end.

(** An [except (c1, ..., cn)] clause catches [e] when [e] is an instance
    of one of the listed classes. *)
Definition catches (classes : list exn) (e : exn) : bool :=
  existsb (issubclass e) classes.

(** A computation either yields a value or raises. *)
Inductive result (A : Type) : Type :=
| Ok (a : A)
| Raise (e : exn).
Arguments Ok {A} a.
Arguments Raise {A} e.

Definition bind {A B} (c : result A) (k : A -> result B) : result B :=
  match c with
  | Ok a => k a
  | Raise e => Raise e
  end.

(** [try: body  except classes: handler] *)
Definition try_except {A} (body : result A) (classes : list exn)
    (handler : exn -> result A) : result A :=
  match body with
  | Ok a => Ok a
  | Raise e => if catches classes e then handler e else Raise e
  end.

(** ** Binary64 arithmetic *)

Definition prec : Z := 53.
Definition emax : Z := 1024.

Definition float : Type := spec_float.

Definition fzero : float := S754_zero false.
Definition fadd : float -> float -> float := SFadd prec emax.
Definition fsub : float -> float -> float := SFsub prec emax.
Definition fmul : float -> float -> float := SFmul prec emax.
Definition fdiv : float -> float -> float := SFdiv prec emax.
Definition feqb : float -> float -> bool := SFeqb.

(** [x / y] on floats: Python raises before dividing by a zero of
    either sign. *)
Definition float_truediv (x y : float) : result float :=
  if feqb y fzero then Raise ZeroDivisionError else Ok (fdiv x y).

(** The correctly rounded (to nearest, ties to even) quotient [n / d] of
    a natural number by a positive one, with the given sign. *)
Definition round_ratio (neg : bool) (n : Z) (d : Z) : float :=
  let '(q, e, l) := SFdiv_core_binary prec emax n 0 d 0 in
  binary_round_aux prec emax neg q e l.

(** [float(z)] for an [int]: the nearest double, [OverflowError] when
    there is none. *)
Definition float_of_int (z : Z) : result float :=
  match binary_normalize prec emax z 0 false with
  | S754_infinity _ => Raise OverflowError
  | f => Ok f
  end.

(** ** [float(s)] for a string

    The grammar is that of CPython: underscores are allowed between
    digits only, white space is stripped at both ends, then comes an
    optional sign followed by [inf], [infinity] or [nan] in any case, or
    by a decimal numeral with optional fraction and exponent.  The whole
    string must be consumed.  Strings are sequences of 8-bit
    characters; the decimal digits and spaces that Unicode has outside
    ASCII are not covered, such strings count as not numeric here. *)

Definition is_digit (c : ascii) : bool :=
  let n := nat_of_ascii c in (48 <=? n)%nat && (n <=? 57)%nat.

Definition digit_val (c : ascii) : Z := Z.of_nat (nat_of_ascii c) - 48.

Definition is_space (c : ascii) : bool :=
  let n := nat_of_ascii c in
  (n =? 32)%nat || ((9 <=? n)%nat && (n <=? 13)%nat).

Definition to_lower (c : ascii) : ascii :=
  let n := nat_of_ascii c in
  if (65 <=? n)%nat && (n <=? 90)%nat then ascii_of_nat (n + 32) else c.

Definition underscore : ascii := "_"%char.

(** Removes the underscores; [None] when one of them is not between
    two digits.  [prev] is the character before [cs], if any. *)
Fixpoint strip_underscores (prev : option ascii) (cs : list ascii)
    : option (list ascii) :=
  match cs with
  | [] =>
      match prev with
      | Some p => if Ascii.eqb p underscore then None else Some []
      | None => Some []
      end
  | c :: rest =>
      let prev_digit := match prev with Some p => is_digit p | None => false end in
      let prev_us :=
        match prev with Some p => Ascii.eqb p underscore | None => false end in
      if Ascii.eqb c underscore then
        if prev_digit then strip_underscores (Some c) rest else None
      else if prev_us && negb (is_digit c) then None
      else option_map (cons c) (strip_underscores (Some c) rest)
  end.

Fixpoint drop_spaces (cs : list ascii) : list ascii :=
  match cs with
  | c :: rest => if is_space c then drop_spaces rest else cs
  | [] => []
  end.

Definition strip (cs : list ascii) : list ascii :=
  rev (drop_spaces (rev (drop_spaces cs))).

(** The longest prefix of digits, and the rest. *)
Fixpoint span_digits (cs : list ascii) : list ascii * list ascii :=
  match cs with
  | c :: rest =>
      if is_digit c then
        let '(ds, tl) := span_digits rest in (c :: ds, tl)
      else ([], cs)
  | [] => ([], [])
  end.

Definition digits_to_Z (ds : list ascii) : Z :=
  fold_left (fun acc c => 10 * acc + digit_val c) ds 0.

Definition take_sign (cs : list ascii) : bool * list ascii :=
  match cs with
  | "-"%char :: rest => (true, rest)
  | "+"%char :: rest => (false, rest)
  | _ => (false, cs)
  end.

(** [cs] starts with [word], compared without case; yields the rest. *)
Fixpoint match_nocase (word cs : list ascii) : option (list ascii) :=
  match word, cs with
  | [], _ => Some cs
  | w :: word', c :: cs' =>
      if Ascii.eqb (to_lower c) w then match_nocase word' cs' else None
  | _ :: _, [] => None
  end.

Definition parse_inf_or_nan (cs : list ascii) : option float :=
  let '(neg, body) := take_sign cs in
  match match_nocase (list_ascii_of_string "inf") body with
  | Some rest =>
      let rest' :=
        match match_nocase (list_ascii_of_string "inity") rest with
        | Some r => r
        | None => rest
        end in
      match rest' with
      | [] => Some (S754_infinity neg)
      | _ => None
      end
  | None =>
      match match_nocase (list_ascii_of_string "nan") body with
      | Some [] => Some S754_nan
      | _ => None
      end
  end.

(** The double nearest to [(-1)^neg * m * 10^e]. *)
Definition decimal_to_float (neg : bool) (m e : Z) : float :=
  if m =? 0 then S754_zero neg
  else if 0 <=? e then round_ratio neg (m * 10 ^ e) 1
  else round_ratio neg m (10 ^ (- e)).

(** The exponent part: empty, or [e] or [E], an optional sign and at
    least one digit, up to the end of the string. *)
Definition parse_exponent (cs : list ascii) : option Z :=
  match cs with
  | [] => Some 0
  | c :: rest =>
      if Ascii.eqb (to_lower c) "e"%char then
        let '(eneg, rest1) := take_sign rest in
        match span_digits rest1 with
        | ((_ :: _) as ds, []) =>
            Some (if eneg then - digits_to_Z ds else digits_to_Z ds)
        | _ => None
        end
      else None
  end.

Definition parse_decimal (cs : list ascii) : option float :=
  let '(neg, body) := take_sign cs in
  let '(ip, rest) := span_digits body in
  let '(fp, rest') :=
    match rest with
    | "."%char :: tl => span_digits tl
    | _ => ([], rest)
    end in
  match ip ++ fp with
  | [] => None
  | ds =>
      match parse_exponent rest' with
      | Some ex =>
          Some (decimal_to_float neg (digits_to_Z ds)
                  (ex - Z.of_nat (List.length fp)))
      | None => None
      end
  end.

Definition float_of_string (s : string) : result float :=
  match strip_underscores None (list_ascii_of_string s) with
  | None => Raise ValueError
  | Some cs =>
      let body := strip cs in
      match parse_decimal body with
      | Some f => Ok f
      | None =>
          match parse_inf_or_nan body with
          | Some f => Ok f
          | None => Raise ValueError
          end
      end
  end.

(** [float(v)] *)
Definition py_float (v : pyval) : result float :=
  match v with
  | PFloat f => Ok f
  | PInt z => float_of_int z
  | PBool b => float_of_int (if b then 1 else 0)
  | PStr s => float_of_string s
  | PNone | PList _ | PDict _ => Raise TypeError
  end.

(** ** Dictionaries *)

Definition dict : Type := list (string * pyval).

(** The value stored under [k], if any. *)
Fixpoint dict_get (d : dict) (k : string) : option pyval :=
  match d with
  | [] => None
  | (k', v) :: rest => if String.eqb k' k then Some v else dict_get rest k
  end.

(** [d[k] = v]: replaces the value in place, or adds the item last. *)
Fixpoint dict_set (d : dict) (k : string) (v : pyval) : dict :=
  match d with
  | [] => [(k, v)]
  | (k', v') :: rest =>
      if String.eqb k' k then (k, v) :: rest
      else (k', v') :: dict_set rest k v
  end.

(** [d] without the key [k]. *)
Fixpoint dict_remove (d : dict) (k : string) : dict :=
  match d with
  | [] => []
  | (k', v') :: rest =>
      if String.eqb k' k then dict_remove rest k
      else (k', v') :: dict_remove rest k
  end.

(** [d.get(k, default)] on a dictionary. *)
Definition dict_get_or (d : dict) (k : string) (default : pyval) : pyval :=
  match dict_get d k with
  | Some v => v
  | None => default
  end.

(** [obj.get(k, default)] on any value: only dictionaries have the
    method, the attribute lookup fails on the other values. *)
Definition py_get (obj : pyval) (k : string) (default : pyval)
    : result pyval :=
  match obj with
  | PDict d => Ok (dict_get_or d k default)
  | _ => Raise AttributeError
  end.

(** [v == s] for a string literal [s]: only an equal string is equal. *)
Definition py_eq_str (v : pyval) (s : string) : bool :=
  match v with
  | PStr s' => String.eqb s' s
  | _ => false
  end.

(** ** Dates and times

    A naive [datetime], as [datetime.now()] returns it.  Python keeps
    the fields of every [datetime] in range. *)
Record datetime : Type := mkDatetime {
  year : Z;
  month : Z;
  day : Z;
  hour : Z;
  minute : Z;
  second : Z;
  microsecond : Z
}.

(** The ranges that [datetime] enforces (it also bounds the day by the
    length of the month). *)
Definition datetime_in_range (t : datetime) : Prop :=
  1 <= year t <= 9999 /\ 1 <= month t <= 12 /\ 1 <= day t <= 31
  /\ 0 <= hour t <= 23 /\ 0 <= minute t <= 59 /\ 0 <= second t <= 59
  /\ 0 <= microsecond t <= 999999.

Definition digit_char (d : Z) : ascii := ascii_of_nat (48 + Z.to_nat d).

(** The decimal digits of [n] on [width] places, zeros in front: the
    [%0<width>d] of a number from 0 to [10^width - 1]. *)
Fixpoint zero_padded (width : nat) (n : Z) : list ascii :=
  match width with
  | O => []
  | S w =>
      digit_char (n / 10 ^ Z.of_nat w)
        :: zero_padded w (n mod 10 ^ Z.of_nat w)
  end.

(** [t.isoformat()]: the date, a [T], the time, and the microseconds
    only when they are not zero. *)
Definition isoformat (t : datetime) : string :=
  string_of_list_ascii
    (zero_padded 4 (year t) ++ "-"%char
       :: zero_padded 2 (month t) ++ "-"%char
       :: zero_padded 2 (day t) ++ "T"%char
       :: zero_padded 2 (hour t) ++ ":"%char
       :: zero_padded 2 (minute t) ++ ":"%char
       :: zero_padded 2 (second t)
       ++ (if microsecond t =? 0 then []
           else "."%char :: zero_padded 6 (microsecond t))).

End Py.

Import Py.

Declare Scope py_scope.
Delimit Scope py_scope with py.
Notation "x <- c ;; k" := (bind c (fun x => k))
  (at level 61, c at next level, right associativity) : py_scope.

(** ** The views *)

Module Views.

Local Open Scope py_scope.

(** What a view hands back to the framework: a status code and the
    data to be rendered as JSON. *)
Record Response : Type := mkResponse {
  status : Z;
  data : pyval
}.

Definition HTTP_200_OK : Z := 200.
Definition HTTP_400_BAD_REQUEST : Z := 400.

Definition error_body (message : string) : pyval :=
  PDict [("error", PStr message)].

Definition msg_divide_by_zero : string := "Cannot divide by zero".
Definition msg_invalid_operation : string :=
  "Invalid operation. Use: add, subtract, multiply, or divide".
Definition msg_invalid_input : string :=
  "Invalid input. Please provide valid numbers.".

Definition msg_healthy : string := "API is running successfully".

(** [health_check(request)], as a function of what [datetime.now()]
    reads off the clock; the request is not looked at. *)
Definition health_check (now : datetime) : result Response :=
  Ok (mkResponse HTTP_200_OK
        (PDict [("status", PStr "healthy");
                ("message", PStr msg_healthy);
                ("timestamp", PStr (isoformat now))])).

Section Calculate.

(** The division the handler uses; it is [float_truediv] in the
    program.  Keeping it a variable lets a statement speak of the
    arguments the handler divides at. *)
Variable truediv : float -> float -> result float.

(** [calculate(request)], as a function of [request.data].  [Raise e]
    is an exception that leaves the function.  The [api_view]
    decorator, which turns away the methods other than POST, and the
    rendering of the response are the framework's and not part of it.
    Here [request.data] is the value of a body that parsed;
    [calculate_request] below starts one step earlier, at the
    evaluation of [request.data], which can raise. *)
Definition calculate_with (request_data : pyval) : result Response :=
  try_except
    (n1 <- py_get request_data "num1" (PInt 0) ;;
     num1 <- py_float n1 ;;
     n2 <- py_get request_data "num2" (PInt 0) ;;
     num2 <- py_float n2 ;;
     operation <- py_get request_data "operation" (PStr "add") ;;
     let respond (result : float) : Py.result Response :=
       Ok (mkResponse HTTP_200_OK
             (PDict [("num1", PFloat num1);
                     ("num2", PFloat num2);
                     ("operation", operation);
                     ("result", PFloat result)])) in
     if py_eq_str operation "add" then respond (fadd num1 num2)
     else if py_eq_str operation "subtract" then respond (fsub num1 num2)
     else if py_eq_str operation "multiply" then respond (fmul num1 num2)
     else if py_eq_str operation "divide" then
       if feqb num2 fzero then
         Ok (mkResponse HTTP_400_BAD_REQUEST (error_body msg_divide_by_zero))
       else
         (result <- truediv num1 num2 ;; respond result)
     else
       Ok (mkResponse HTTP_400_BAD_REQUEST (error_body msg_invalid_operation)))
    [ValueError; TypeError]
    (fun _ =>
       Ok (mkResponse HTTP_400_BAD_REQUEST (error_body msg_invalid_input))).

End Calculate.

Definition calculate : pyval -> result Response :=
  calculate_with float_truediv.

(** [calculate(request)], as a function of what evaluating
    [request.data] gives.  The property parses the body when it is
    first read, at the first line inside the [try]: it yields the
    parsed value, which the later reads yield again, or raises, and
    then nothing else of the body of the function runs.  The [except]
    clause treats such an exception as any other. *)
Definition calculate_request (request_data : result pyval)
    : result Response :=
  try_except
    (data <- request_data ;;
     n1 <- py_get data "num1" (PInt 0) ;;
     num1 <- py_float n1 ;;
     n2 <- py_get data "num2" (PInt 0) ;;
     num2 <- py_float n2 ;;
     operation <- py_get data "operation" (PStr "add") ;;
     let respond (result : float) : Py.result Response :=
       Ok (mkResponse HTTP_200_OK
             (PDict [("num1", PFloat num1);
                     ("num2", PFloat num2);
                     ("operation", operation);
                     ("result", PFloat result)])) in
     if py_eq_str operation "add" then respond (fadd num1 num2)
     else if py_eq_str operation "subtract" then respond (fsub num1 num2)
     else if py_eq_str operation "multiply" then respond (fmul num1 num2)
     else if py_eq_str operation "divide" then
       if feqb num2 fzero then
         Ok (mkResponse HTTP_400_BAD_REQUEST (error_body msg_divide_by_zero))
       else
         (result <- float_truediv num1 num2 ;; respond result)
     else
       Ok (mkResponse HTTP_400_BAD_REQUEST (error_body msg_invalid_operation)))
    [ValueError; TypeError]
    (fun _ =>
       Ok (mkResponse HTTP_400_BAD_REQUEST (error_body msg_invalid_input))).

(** The suspension points of an asynchronous view. *)
Inductive event : Type :=
| Sleep (milliseconds : Z).

(** [hello_async(request)]: a suspension of 100 milliseconds, then a
    fixed answer. *)
Definition hello_async : list event * result Response :=
  ([Sleep 100],
   Ok (mkResponse HTTP_200_OK
         (PDict [("message", PStr "Hello from Django!");
                 ("async", PBool true);
                 ("status", PStr "success")]))).

Section ProcessData.

(** [json.loads], applied to the raw request body. *)
Variable json_loads : string -> result pyval.

(** [process_data(request)], as a function of [request.body]: the
    suspensions it went through, and its outcome.  [asyncio.sleep(0.2)]
    is a suspension of 200 milliseconds; [JsonResponse] answers with
    status 200. *)
Definition process_data (body : string) : list event * result Response :=
  match json_loads body with
  | Raise e => ([], Raise e)
  | Ok data =>
      ([Sleep 200],
       Ok (mkResponse HTTP_200_OK
             (PDict [("received", data); ("processed", PBool true)])))
  end.

End ProcessData.

End Views.

Import Views.

(** ** The routes of [api/urls.py] *)

Module Urls.

(** The four view functions a route can name. *)
Inductive view : Type :=
| view_health_check
| view_calculate
| view_hello_async
| view_process_data.

(** [path(route, view, name=...)] *)
Record urlpattern : Type := path {
  route : string;
  callback : view;
  name : option string
}.

(** The table of the module, in its order. *)
Definition urlpatterns : list urlpattern :=
  [ path "health/" view_health_check (Some "health-check");
    path "calculate/" view_calculate (Some "calculate");
    path "hello/" view_hello_async None;
    path "process/" view_process_data None ].

(** The resolver tries the patterns in order and takes the first that
    matches; a route without converters, as all of these are, matches
    the path equal to it.  [None] is [Resolver404].  The path is what
    is left of the request path once the prefix under which the
    project includes this module is taken off. *)
Fixpoint resolve_in (patterns : list urlpattern) (p : string) : option view :=
  match patterns with
  | [] => None
  | pat :: rest =>
      if String.eqb (route pat) p then Some (callback pat)
      else resolve_in rest p
  end.

Definition resolve : string -> option view := resolve_in urlpatterns.

(** [reverse(name)]: the route of the pattern of that name, relative
    to the same prefix; [None] is [NoReverseMatch]. *)
Fixpoint reverse_in (patterns : list urlpattern) (n : string)
    : option string :=
  match patterns with
  | [] => None
  | pat :: rest =>
      match name pat with
      | Some n' =>
          if String.eqb n' n then Some (route pat) else reverse_in rest n
      | None => reverse_in rest n
      end
  end.

Definition reverse : string -> option string := reverse_in urlpatterns.

End Urls.

Import Urls.

(** ** Statements of the specification that need words of their own *)

(** The rational number a finite float stands for. *)
Definition float_value (f : float) : option Q :=
  match f with
  | S754_zero _ => Some 0%Q
  | S754_finite s m e =>
      Some (inject_Z (cond_Zopp s (Zpos m)) * Qpower 2 e)%Q
  | S754_infinity _ | S754_nan => None
  end.

(** The three total operations on rational numbers, by name. *)
Definition exact_arith (op : string) (a b : Q) : option Q :=
  if String.eqb op "add" then Some (a + b)%Q
  else if String.eqb op "subtract" then Some (a - b)%Q
  else if String.eqb op "multiply" then Some (a * b)%Q
  else None.

(** The same operations on doubles, by name. *)
Definition float_arith (op : string) : option (float -> float -> float) :=
  if String.eqb op "add" then Some fadd
  else if String.eqb op "subtract" then Some fsub
  else if String.eqb op "multiply" then Some fmul
  else None.

(** The same operations on integers, by name. *)
Definition int_arith (op : string) : option (Z -> Z -> Z) :=
  if String.eqb op "add" then Some Z.add
  else if String.eqb op "subtract" then Some Z.sub
  else if String.eqb op "multiply" then Some Z.mul
  else None.

(** [f] is finite and stands for the rational number [q]. *)
Definition has_value (f : float) (q : Q) : Prop :=
  match float_value f with
  | Some v => (v == q)%Q
  | None => False
  end.

(** [f] is finite, has no fractional bits and stands for the integer
    [z]. *)
Definition represents_int (f : float) (z : Z) : Prop :=
  match f with
  | S754_zero _ => z = 0
  | S754_finite s m e => e <= 0 /\ cond_Zopp s (Zpos m) = z * 2 ^ (- e)
  | S754_infinity _ | S754_nan => False
  end.

(** A mantissa with no bit shifted out of it yet. *)
Definition exact_record (x : Z) : shr_record :=
  {| shr_m := x; shr_r := false; shr_s := false |}.

(** A request body with the three fields. *)
Definition calculation_request (num1 num2 operation : pyval) : pyval :=
  PDict [("num1", num1); ("num2", num2); ("operation", operation)].

(** The body of a successful answer. *)
Definition calculation_body (num1 num2 : float) (operation : pyval)
    (result : float) : pyval :=
  PDict [("num1", PFloat num1); ("num2", PFloat num2);
         ("operation", operation); ("result", PFloat result)].

Definition ok_response (body : pyval) : result Response :=
  Ok (mkResponse HTTP_200_OK body).

Definition bad_request (message : string) : result Response :=
  Ok (mkResponse HTTP_400_BAD_REQUEST (error_body message)).

(** "The handler returns the exact arithmetic result and echoes the
    operands": the answer to the numbers [a], [b] and the operation [op]
    has status 200, carries [a], [b] and [op], and its result stands for
    the rational number obtained from [a] and [b] by [op]. *)
Definition returns_exact_result (a b : float) (op : string) : Prop :=
  exists (r : float) (qa qb q qr : Q),
    calculate (calculation_request (PFloat a) (PFloat b) (PStr op))
      = ok_response (calculation_body a b (PStr op) r)
    /\ float_value a = Some qa
    /\ float_value b = Some qb
    /\ exact_arith op qa qb = Some q
    /\ float_value r = Some qr
    /\ (qr == q)%Q.

(** Some doubles: 1, 3, 5, 10, 15 and 2^53. *)
Definition float_one : float := S754_finite false 4503599627370496 (-52).
Definition float_three : float := S754_finite false 6755399441055744 (-51).
Definition float_five : float := S754_finite false 5629499534213120 (-50).
Definition float_ten : float := S754_finite false 5629499534213120 (-49).
Definition float_fifteen : float := S754_finite false 8444249301319680 (-49).
Definition two_pow_53 : float := S754_finite false 4503599627370496 1.

(** An integer too large for a double. *)
Definition huge_int : Z := 10 ^ 400.

(** A JSON integer literal: an optional minus sign and digits without
    a leading zero. *)
Definition json_int (cs : list ascii) : option Z :=
  let '(neg, body) :=
    match cs with
    | "-"%char :: rest => (true, rest)
    | _ => (false, cs)
    end in
  match span_digits body with
  | ((c :: tl) as ds, []) =>
      if Ascii.eqb c "0"%char && negb (Nat.eqb (List.length tl) 0) then None
      else Some (if neg then - digits_to_Z ds else digits_to_Z ds)
  | _ => None
  end.

(** The decoder of the JSON texts that are [null], [true], [false] or
    an integer literal.  It rejects every other text, also those that
    [json.loads] accepts; it is there to run [process_data] on concrete
    bodies. *)
Definition json_loads_scalar (s : string) : result pyval :=
  if String.eqb s "null" then Ok PNone
  else if String.eqb s "true" then Ok (PBool true)
  else if String.eqb s "false" then Ok (PBool false)
  else
    match json_int (list_ascii_of_string s) with
    | Some z => Ok (PInt z)
    | None => Raise JSONDecodeError
    end.

(** "A null field is not defaulted": as worded, for every body. *)
Definition null_fields_rejected : Prop :=
  forall d : dict,
    (dict_get d "num1" = Some PNone ->
       calculate (PDict d) = bad_request msg_invalid_input)
    /\ (dict_get d "num2" = Some PNone ->
       calculate (PDict d) = bad_request msg_invalid_input)
    /\ (dict_get d "operation" = Some PNone ->
       calculate (PDict d) = bad_request msg_invalid_operation).

(** ** Words for further properties *)

(** [res] is what the dispatch computes from [x] and [y] under the
    operation named [op]: one of the three total operations, or the
    quotient by a divisor that is not zero. *)
Definition computes (op : string) (x y res : float) : Prop :=
  (exists f, float_arith op = Some f /\ res = f x y)
  \/ (op = "divide" /\ feqb y fzero = false /\ res = fdiv x y).

(** The conversions of the two operands, in the order of the handler:
    the second is not attempted when the first raises. *)
Definition operands (d : dict) : result (float * float) :=
  bind (py_float (dict_get_or d "num1" (PInt 0))) (fun x =>
  bind (py_float (dict_get_or d "num2" (PInt 0))) (fun y =>
  Ok (x, y))).

(** [-x] on floats. *)
Definition fopp : float -> float := SFopp.

(** A reader of what [isoformat] writes: exactly [width] digits, a
    given character, and the whole timestamp with its optional
    fraction of six digits. *)
Fixpoint read_number (width : nat) (acc : Z) (cs : list ascii)
    : option (Z * list ascii) :=
  match width with
  | O => Some (acc, cs)
  | S w =>
      match cs with
      | c :: rest =>
          if is_digit c then read_number w (10 * acc + digit_val c) rest
          else None
      | [] => None
      end
  end.

Definition expect (c : ascii) (cs : list ascii) : option (list ascii) :=
  match cs with
  | c' :: rest => if Ascii.eqb c' c then Some rest else None
  | [] => None
  end.

Definition read_field (width : nat) (sep : ascii) (cs : list ascii)
    : option (Z * list ascii) :=
  match read_number width 0 cs with
  | Some (n, rest) =>
      match expect sep rest with
      | Some rest' => Some (n, rest')
      | None => None
      end
  | None => None
  end.

Definition parse_isoformat (s : string) : option datetime :=
  match read_field 4 "-" (list_ascii_of_string s) with
  | Some (y, cs1) =>
  match read_field 2 "-" cs1 with
  | Some (mo, cs2) =>
  match read_field 2 "T" cs2 with
  | Some (d, cs3) =>
  match read_field 2 ":" cs3 with
  | Some (h, cs4) =>
  match read_field 2 ":" cs4 with
  | Some (mi, cs5) =>
  match read_number 2 0 cs5 with
  | Some (sec, []) => Some (mkDatetime y mo d h mi sec 0)
  | Some (sec, cs6) =>
      match expect "." cs6 with
      | Some cs7 =>
          match read_number 6 0 cs7 with
          | Some (us, []) => Some (mkDatetime y mo d h mi sec us)
          | _ => None
          end
      | None => None
      end
  | None => None
  end
  | None => None end
  | None => None end
  | None => None end
  | None => None end
  | None => None end.

(** The characters a numeric string is made of: digits, white space,
    the signs, the point, the underscore, and the letters of the
    exponent mark and of [infinity] and [nan], in either case. *)
Definition numeric_char (c : ascii) : bool :=
  is_digit c || is_space c
  || existsb (Ascii.eqb c) (list_ascii_of_string "+-._")
  || existsb (Ascii.eqb (to_lower c)) (list_ascii_of_string "einfatyn").

(** All characters of [cs] are numeric. *)
Definition numeric (cs : list ascii) : Prop :=
  Forall (fun c => numeric_char c = true) cs.

(** ** Facts about dictionaries and conversions *)

Section DictFacts.

Variables (d : dict) (k : string).

Lemma dict_get_set_same (v : pyval) : dict_get (dict_set d k v) k = Some v.
Proof.
  induction d as [|[k' v'] rest IH]; cbn.
  - now rewrite String.eqb_refl.
  - destruct (String.eqb k' k) eqn:E; cbn.
    + now rewrite String.eqb_refl.
    + now rewrite E.
Qed.

Lemma dict_get_set_other (v : pyval) (k2 : string) :
  k2 <> k -> dict_get (dict_set d k v) k2 = dict_get d k2.
Proof.
  intros Hne.
  assert (Hk : String.eqb k k2 = false)
    by (apply String.eqb_neq; congruence).
  induction d as [|[k' v'] rest IH]; cbn.
  - now rewrite Hk.
  - destruct (String.eqb k' k) eqn:E; cbn.
    + apply String.eqb_eq in E. subst k'. now rewrite Hk.
    + destruct (String.eqb k' k2); [reflexivity | exact IH].
Qed.

Lemma dict_get_remove_same : dict_get (dict_remove d k) k = None.
Proof.
  induction d as [|[k' v'] rest IH]; cbn; [reflexivity|].
  destruct (String.eqb k' k) eqn:E; cbn; [exact IH | now rewrite E].
Qed.

Lemma dict_get_remove_other (k2 : string) :
  k2 <> k -> dict_get (dict_remove d k) k2 = dict_get d k2.
Proof.
  intros Hne.
  induction d as [|[k' v'] rest IH]; cbn; [reflexivity|].
  destruct (String.eqb k' k) eqn:E; cbn.
  - apply String.eqb_eq in E. subst k'.
    assert (Hk : String.eqb k k2 = false)
      by (apply String.eqb_neq; congruence).
    now rewrite Hk.
  - destruct (String.eqb k' k2); [reflexivity | exact IH].
Qed.

End DictFacts.

(** [float] raises nothing but the two classes the handler catches
    and [OverflowError]. *)
Lemma float_of_int_outcomes (z : Z) :
  (exists x, float_of_int z = Ok x) \/ float_of_int z = Raise OverflowError.
Proof.
  unfold float_of_int.
  destruct (binary_normalize prec emax z 0 false); eauto.
Qed.

Lemma float_of_string_outcomes (s : string) :
  (exists x, float_of_string s = Ok x) \/ float_of_string s = Raise ValueError.
Proof.
  unfold float_of_string.
  destruct (strip_underscores None (list_ascii_of_string s)); [|now right].
  destruct (parse_decimal (strip l)); [eauto|].
  destruct (parse_inf_or_nan (strip l)); eauto.
Qed.

Lemma py_float_outcomes (v : pyval) :
  (exists x, py_float v = Ok x)
  \/ py_float v = Raise ValueError
  \/ py_float v = Raise TypeError
  \/ py_float v = Raise OverflowError.
Proof.
  destruct v as [|b|z|f|s|l|d]; cbn; auto.
  - destruct (float_of_int_outcomes (if b then 1 else 0)); auto.
  - destruct (float_of_int_outcomes z); auto.
  - eauto.
  - destruct (float_of_string_outcomes s); auto.
Qed.

(** ** Integers below 2^53 are computed with exactly

    Rounding leaves a number that fits in 53 bits as it is, so the
    conversion of such an integer and the sum, difference and product
    of two of them are exact as long as the result fits as well. *)

Section Rounding.

Lemma digits2_pos_size (p : positive) : digits2_pos p = Pos.size p.
Proof. induction p; cbn; congruence. Qed.

Lemma Zdigits2_log2 (x : Z) : 0 < x -> Zdigits2 x = Z.log2 x + 1.
Proof.
  destruct x as [|p|p]; try lia. intros _. cbn [Zdigits2].
  rewrite digits2_pos_size.
  destruct p; cbn; lia.
Qed.

Lemma iter_pos_iter {A} (f : A -> A) (p : positive) (x : A) :
  iter_pos f p x = Pos.iter f x p.
Proof.
  revert x. induction p as [p IH|p IH|]; intros x; cbn.
  - rewrite !IH, !Pos.iter_swap. reflexivity.
  - now rewrite !IH.
  - reflexivity.
Qed.

Lemma shr_1_even (x : Z) : 0 <= x -> shr_1 (exact_record (2 * x)) = exact_record x.
Proof. destruct x; cbn; try reflexivity; lia. Qed.

Lemma iter_shr_1_exact (p : positive) (x : Z) :
  0 <= x ->
  iter_pos shr_1 p (exact_record (x * 2 ^ Zpos p)) = exact_record x.
Proof.
  intros Hx. rewrite iter_pos_iter. revert x Hx.
  induction p as [|p IH] using Pos.peano_ind; intros x Hx.
  - cbn [Pos.iter]. rewrite Z.pow_1_r, Z.mul_comm. now apply shr_1_even.
  - rewrite Pos.iter_succ, Pos2Z.inj_succ, Z.pow_succ_r by lia.
    replace (x * (2 * 2 ^ Zpos p)) with ((2 * x) * 2 ^ Zpos p) by ring.
    rewrite IH by lia. now apply shr_1_even.
Qed.

Lemma fexp_small (x : Z) :
  0 < x -> x < 2 ^ 53 -> fexp prec emax (Z.log2 x + 1) = Z.log2 x - 52.
Proof.
  intros H0 H1. unfold fexp, emin, prec, emax.
  pose proof (Z.log2_nonneg x). lia.
Qed.

Lemma log2_small (x : Z) : 0 < x -> x < 2 ^ 53 -> 0 <= Z.log2 x <= 52.
Proof.
  intros H0 H1. split; [apply Z.log2_nonneg|].
  assert (Z.log2 x < 53) by (apply Z.log2_lt_pow2; lia). lia.
Qed.

Lemma shr_fexp_exact (x k : Z) :
  0 < x -> x < 2 ^ 53 -> 0 <= k ->
  shr_fexp prec emax (x * 2 ^ k) (- k) loc_Exact
    = (exact_record (x * 2 ^ Z.min k (52 - Z.log2 x)),
       - Z.min k (52 - Z.log2 x)).
Proof.
  intros H0 H1 Hk. pose proof (log2_small x H0 H1) as Hl.
  assert (Hp : 0 < x * 2 ^ k)
    by (apply Z.mul_pos_pos; [lia | apply Z.pow_pos_nonneg; lia]).
  unfold shr_fexp. rewrite (Zdigits2_log2 _ Hp).
  rewrite Z.log2_mul_pow2 by lia.
  replace (k + Z.log2 x + 1 + - k) with (Z.log2 x + 1) by ring.
  rewrite fexp_small by assumption.
  cbn [shr_record_of_loc]. fold (exact_record (x * 2 ^ k)).
  unfold shr.
  destruct (Z.log2 x - 52 - - k) as [|p|p] eqn:E.
  - replace (Z.min k (52 - Z.log2 x)) with k by lia. reflexivity.
  - replace (Z.min k (52 - Z.log2 x)) with (52 - Z.log2 x) by lia.
    replace (x * 2 ^ k) with ((x * 2 ^ (52 - Z.log2 x)) * 2 ^ Zpos p).
    + rewrite iter_shr_1_exact.
      * f_equal. lia.
      * apply Z.mul_nonneg_nonneg; [lia | apply Z.pow_nonneg; lia].
    + rewrite <- Z.mul_assoc, <- Z.pow_add_r by lia. do 2 f_equal. lia.
  - replace (Z.min k (52 - Z.log2 x)) with k by lia. reflexivity.
Qed.

(** Rounding a number that needs no rounding. *)
Lemma binary_round_aux_exact (s : bool) (x k : Z) :
  0 < x -> x < 2 ^ 53 -> 0 <= k ->
  binary_round_aux prec emax s (x * 2 ^ k) (- k) loc_Exact
    = S754_finite s (Z.to_pos (x * 2 ^ Z.min k (52 - Z.log2 x)))
        (- Z.min k (52 - Z.log2 x)).
Proof.
  intros H0 H1 Hk. pose proof (log2_small x H0 H1) as Hl.
  unfold binary_round_aux.
  rewrite shr_fexp_exact by assumption.
  cbn [exact_record shr_m loc_of_shr_record round_nearest_even].
  set (j := Z.min k (52 - Z.log2 x)).
  assert (Hj : 0 <= j) by (unfold j; lia).
  rewrite shr_fexp_exact by assumption.
  replace (Z.min j (52 - Z.log2 x)) with j by (unfold j; lia).
  cbn [exact_record shr_m].
  assert (Hp : 0 < x * 2 ^ j)
    by (apply Z.mul_pos_pos; [lia | apply Z.pow_pos_nonneg; lia]).
  destruct (x * 2 ^ j) as [|m|m]; try lia.
  replace (- j <=? emax - prec) with true
    by (symmetry; apply Z.leb_le; unfold emax, prec; lia).
  reflexivity.
Qed.

Lemma Zpos_iter_xO (p d : positive) :
  Zpos (Pos.iter xO p d) = Zpos p * 2 ^ Zpos d.
Proof.
  induction d as [|d IH] using Pos.peano_ind.
  - cbn [Pos.iter]. rewrite Z.pow_1_r. lia.
  - rewrite Pos.iter_succ, Pos2Z.inj_succ, Z.pow_succ_r by lia.
    rewrite Pos2Z.inj_xO, IH. ring.
Qed.

Lemma shl_align_fst (mx : positive) (ex ez : Z) :
  ez <= ex ->
  Zpos (fst (shl_align mx ex ez)) = Zpos mx * 2 ^ (ex - ez).
Proof.
  intros Hle. unfold shl_align.
  destruct (ez - ex) as [|d|d] eqn:E; cbn [fst].
  - replace (ex - ez) with 0 by lia. rewrite Z.pow_0_r. lia.
  - lia.
  - rewrite Zpos_iter_xO. do 2 f_equal. lia.
Qed.

Lemma binary_round_exact (s : bool) (mx : positive) (x k : Z) :
  0 < x -> x < 2 ^ 53 -> 0 <= k -> Zpos mx = x * 2 ^ k ->
  binary_round prec emax s mx (- k)
    = S754_finite s (Z.to_pos (x * 2 ^ (52 - Z.log2 x))) (- (52 - Z.log2 x)).
Proof.
  intros H0 H1 Hk Hm. pose proof (log2_small x H0 H1) as Hl.
  unfold binary_round.
  change (Zpos (digits2_pos mx)) with (Zdigits2 (Zpos mx)).
  rewrite Zdigits2_log2 by lia. rewrite Hm, Z.log2_mul_pow2 by lia.
  replace (k + Z.log2 x + 1 + - k) with (Z.log2 x + 1) by ring.
  rewrite fexp_small by assumption.
  unfold shl_align.
  destruct (Z.log2 x - 52 - - k) as [|d|d] eqn:E.
  - rewrite Hm, binary_round_aux_exact by assumption.
    replace (Z.min k (52 - Z.log2 x)) with (52 - Z.log2 x) by lia.
    reflexivity.
  - rewrite Hm, binary_round_aux_exact by assumption.
    replace (Z.min k (52 - Z.log2 x)) with (52 - Z.log2 x) by lia.
    reflexivity.
  - rewrite Zpos_iter_xO, Hm.
    replace (x * 2 ^ k * 2 ^ Zpos d) with (x * 2 ^ (52 - Z.log2 x)).
    + replace (Z.log2 x - 52) with (- (52 - Z.log2 x)) by ring.
      rewrite binary_round_aux_exact by lia.
      rewrite Z.min_id. reflexivity.
    + rewrite <- Z.mul_assoc, <- Z.pow_add_r by lia. do 2 f_equal. lia.
Qed.

Lemma binary_round_aux_int (s : bool) (M e x z : Z) :
  0 < x -> x < 2 ^ 53 -> e <= 0 -> M = x * 2 ^ (- e) -> cond_Zopp s x = z ->
  represents_int (binary_round_aux prec emax s M e loc_Exact) z.
Proof.
  intros H0 H1 He -> Hz. pose proof (log2_small x H0 H1) as Hl.
  replace e with (- - e) at 2 by ring.
  rewrite binary_round_aux_exact by lia.
  set (j := Z.min (- e) (52 - Z.log2 x)).
  assert (Hj : 0 <= j) by (unfold j; lia).
  assert (Hp : 0 < x * 2 ^ j)
    by (apply Z.mul_pos_pos; [lia | apply Z.pow_pos_nonneg; lia]).
  cbn [represents_int]. split; [lia|].
  rewrite Z2Pos.id, Z.opp_involutive by assumption.
  subst z. destruct s; cbn [cond_Zopp]; ring.
Qed.

Lemma binary_normalize_int (M e z : Z) :
  Z.abs z < 2 ^ 53 -> e <= 0 -> M = z * 2 ^ (- e) ->
  represents_int (binary_normalize prec emax M e false) z.
Proof.
  intros Hz He HM.
  assert (H2 : 0 < 2 ^ (- e)) by (apply Z.pow_pos_nonneg; lia).
  unfold binary_normalize.
  destruct M as [|m|m].
  - cbn. nia.
  - assert (0 < z) by nia.
    replace e with (- - e) by ring.
    rewrite (binary_round_exact false m z (- e)) by lia.
    pose proof (log2_small z ltac:(lia) ltac:(lia)) as Hl.
    assert (Hp : 0 < z * 2 ^ (52 - Z.log2 z))
      by (apply Z.mul_pos_pos; [lia | apply Z.pow_pos_nonneg; lia]).
    cbn [represents_int cond_Zopp]. split; [lia|].
    rewrite Z2Pos.id, Z.opp_involutive by assumption. reflexivity.
  - assert (z < 0) by nia.
    replace e with (- - e) by ring.
    rewrite (binary_round_exact true m (- z) (- e)) by lia.
    pose proof (log2_small (- z) ltac:(lia) ltac:(lia)) as Hl.
    assert (Hp : 0 < - z * 2 ^ (52 - Z.log2 (- z)))
      by (apply Z.mul_pos_pos; [lia | apply Z.pow_pos_nonneg; lia]).
    cbn [represents_int cond_Zopp]. split; [lia|].
    rewrite Z2Pos.id, Z.opp_involutive by assumption. ring.
Qed.

Lemma float_of_int_exact (z : Z) :
  Z.abs z < 2 ^ 53 ->
  exists f, float_of_int z = Ok f /\ represents_int f z.
Proof.
  intros Hz. unfold float_of_int.
  pose proof (binary_normalize_int z 0 z Hz ltac:(lia) ltac:(cbn; ring)) as H.
  destruct (binary_normalize prec emax z 0 false); cbn in H; try contradiction;
    eexists; split; try reflexivity; exact H.
Qed.

Lemma cond_Zopp_mul (s : bool) (a c : Z) :
  cond_Zopp s (a * c) = cond_Zopp s a * c.
Proof. destruct s; cbn; ring. Qed.

Lemma aligned_mantissa (s : bool) (m : positive) (e ez a : Z) :
  ez <= e -> e <= 0 -> cond_Zopp s (Zpos m) = a * 2 ^ (- e) ->
  cond_Zopp s (Zpos (fst (shl_align m e ez))) = a * 2 ^ (- ez).
Proof.
  intros Hle He Hm.
  rewrite shl_align_fst, cond_Zopp_mul, Hm by assumption.
  rewrite <- Z.mul_assoc, <- Z.pow_add_r by lia. do 2 f_equal. lia.
Qed.

Lemma fadd_int (x y : float) (a b : Z) :
  represents_int x a -> represents_int y b -> Z.abs (a + b) < 2 ^ 53 ->
  represents_int (fadd x y) (a + b).
Proof.
  intros Hx Hy Hs.
  destruct x as [sx|sx| |sx mx ex], y as [sy|sy| |sy my ey];
    cbn [represents_int] in Hx, Hy; try contradiction.
  - subst. destruct sx, sy; reflexivity.
  - subst. exact Hy.
  - subst. rewrite Z.add_0_r. exact Hx.
  - destruct Hx as [Hex Hx], Hy as [Hey Hy].
    unfold fadd, SFadd.
    apply binary_normalize_int; [assumption | lia |].
    rewrite (aligned_mantissa sx mx ex _ a), (aligned_mantissa sy my ey _ b)
      by lia.
    ring.
Qed.

Lemma fsub_int (x y : float) (a b : Z) :
  represents_int x a -> represents_int y b -> Z.abs (a - b) < 2 ^ 53 ->
  represents_int (fsub x y) (a - b).
Proof.
  intros Hx Hy Hs.
  destruct x as [sx|sx| |sx mx ex], y as [sy|sy| |sy my ey];
    cbn [represents_int] in Hx, Hy; try contradiction.
  - subst. destruct sx, sy; reflexivity.
  - subst. destruct Hy as [Hey Hy]. cbn [fsub SFsub represents_int].
    split; [assumption|]. destruct sy; cbn [negb cond_Zopp] in *; lia.
  - subst. rewrite Z.sub_0_r. exact Hx.
  - destruct Hx as [Hex Hx], Hy as [Hey Hy].
    unfold fsub, SFsub.
    apply binary_normalize_int; [assumption | lia |].
    rewrite (aligned_mantissa sx mx ex _ a), (aligned_mantissa sy my ey _ b)
      by lia.
    ring.
Qed.

Lemma fmul_int (x y : float) (a b : Z) :
  represents_int x a -> represents_int y b -> Z.abs (a * b) < 2 ^ 53 ->
  represents_int (fmul x y) (a * b).
Proof.
  intros Hx Hy Hs.
  destruct x as [sx|sx| |sx mx ex], y as [sy|sy| |sy my ey];
    cbn [represents_int] in Hx, Hy; try contradiction.
  - subst. reflexivity.
  - subst. reflexivity.
  - subst. cbn. ring.
  - destruct Hx as [Hex Hx], Hy as [Hey Hy].
    unfold fmul, SFmul.
    assert (Hpx : 0 < 2 ^ (- ex)) by (apply Z.pow_pos_nonneg; lia).
    assert (Hpy : 0 < 2 ^ (- ey)) by (apply Z.pow_pos_nonneg; lia).
    apply (binary_round_aux_int _ _ _ (Z.abs (a * b))).
    + destruct sx, sy; cbn [cond_Zopp] in Hx, Hy; nia.
    + assumption.
    + lia.
    + rewrite Pos2Z.inj_mul.
      replace (- (ex + ey)) with (- ex + - ey) by ring.
      rewrite Z.pow_add_r by lia.
      destruct sx, sy; cbn [cond_Zopp] in Hx, Hy; nia.
    + destruct sx, sy; cbn [cond_Zopp xorb] in *; nia.
Qed.

Lemma represents_int_value (f : float) (z : Z) :
  represents_int f z -> has_value f (inject_Z z).
Proof.
  unfold has_value.
  destruct f as [s|s| |s m e]; cbn [represents_int float_value];
    try contradiction.
  - intros ->. reflexivity.
  - intros [He ->].
    rewrite inject_Z_mult, Zpower_Qpower by lia.
    rewrite <- Qmult_assoc, <- Qpower_plus by discriminate.
    replace (- e + e) with 0 by ring. cbn [Qpower]. ring.
Qed.

End Rounding.

(** ** The calculator view *)

Ltac calc_unfold :=
  unfold calculate, calculate_with; cbn [py_get bind].

(** The answer depends on the body through three lookups only. *)
Lemma calculate_with_congr (truediv : float -> float -> result float)
    (d1 d2 : dict) :
  dict_get_or d1 "num1" (PInt 0) = dict_get_or d2 "num1" (PInt 0) ->
  dict_get_or d1 "num2" (PInt 0) = dict_get_or d2 "num2" (PInt 0) ->
  dict_get_or d1 "operation" (PStr "add")
    = dict_get_or d2 "operation" (PStr "add") ->
  calculate_with truediv (PDict d1) = calculate_with truediv (PDict d2).
Proof.
  intros H1 H2 H3. unfold calculate_with. cbn [py_get bind].
  now rewrite H1, H2, H3.
Qed.

(** The four names the dispatch knows. *)
Lemma calculate_operation_unmatched (d : dict) (x y : float) (op : pyval) :
  py_float (dict_get_or d "num1" (PInt 0)) = Ok x ->
  py_float (dict_get_or d "num2" (PInt 0)) = Ok y ->
  dict_get_or d "operation" (PStr "add") = op ->
  py_eq_str op "add" = false ->
  py_eq_str op "subtract" = false ->
  py_eq_str op "multiply" = false ->
  py_eq_str op "divide" = false ->
  calculate (PDict d) = bad_request msg_invalid_operation.
Proof.
  intros H1 H2 H3 Ha Hs Hm Hd. calc_unfold.
  rewrite H1. cbn [bind]. rewrite H2. cbn [bind]. rewrite H3.
  now rewrite Ha, Hs, Hm, Hd.
Qed.

(** The zero test of the handler holds of the two zeros only. *)
Lemma feqb_zero (y : float) :
  feqb y fzero = true <-> exists s, y = S754_zero s.
Proof.
  split.
  - destruct y as [s|s| |s m e]; cbn; try discriminate; eauto;
      destruct s; discriminate.
  - intros [s ->]. reflexivity.
Qed.

(** The three total operations. *)
Lemma calculate_total_operation (d : dict) (x y : float) (op : string)
    (f : float -> float -> float) :
  py_float (dict_get_or d "num1" (PInt 0)) = Ok x ->
  py_float (dict_get_or d "num2" (PInt 0)) = Ok y ->
  dict_get_or d "operation" (PStr "add") = PStr op ->
  float_arith op = Some f ->
  calculate (PDict d) = ok_response (calculation_body x y (PStr op) (f x y)).
Proof.
  intros H1 H2 H3 Hf. calc_unfold.
  rewrite H1. cbn [bind]. rewrite H2. cbn [bind]. rewrite H3.
  unfold float_arith in Hf. cbn [py_eq_str].
  destruct (String.eqb op "add");
    [injection Hf as <-; reflexivity|].
  destruct (String.eqb op "subtract");
    [injection Hf as <-; reflexivity|].
  destruct (String.eqb op "multiply");
    [injection Hf as <-; reflexivity|].
  discriminate.
Qed.

(** A conversion failure the handler catches. *)
Lemma calculate_num1_caught (d : dict) (e : exn) :
  py_float (dict_get_or d "num1" (PInt 0)) = Raise e ->
  catches [ValueError; TypeError] e = true ->
  calculate (PDict d) = bad_request msg_invalid_input.
Proof.
  intros H1 Hc. calc_unfold. rewrite H1. cbn [bind try_except].
  now rewrite Hc.
Qed.

Lemma calculate_num2_caught (d : dict) (x : float) (e : exn) :
  py_float (dict_get_or d "num1" (PInt 0)) = Ok x ->
  py_float (dict_get_or d "num2" (PInt 0)) = Raise e ->
  catches [ValueError; TypeError] e = true ->
  calculate (PDict d) = bad_request msg_invalid_input.
Proof.
  intros H1 H2 Hc. calc_unfold. rewrite H1. cbn [bind]. rewrite H2.
  cbn [bind try_except]. now rewrite Hc.
Qed.

(** A conversion failure it does not catch. *)
Lemma calculate_num1_escapes (d : dict) (e : exn) :
  py_float (dict_get_or d "num1" (PInt 0)) = Raise e ->
  catches [ValueError; TypeError] e = false ->
  calculate (PDict d) = Raise e.
Proof.
  intros H1 Hc. calc_unfold. rewrite H1. cbn [bind try_except].
  now rewrite Hc.
Qed.

(** A failing second conversion is answered with the invalid-input
    message unless the first one overflowed. *)
Lemma calculate_num2_invalid (d : dict) (e : exn) :
  py_float (dict_get_or d "num1" (PInt 0)) <> Raise OverflowError ->
  py_float (dict_get_or d "num2" (PInt 0)) = Raise e ->
  catches [ValueError; TypeError] e = true ->
  calculate (PDict d) = bad_request msg_invalid_input.
Proof.
  intros Hno H2 Hc.
  destruct (py_float_outcomes (dict_get_or d "num1" (PInt 0)))
    as [[x Hx]|[Hx|[Hx|Hx]]].
  - now apply (calculate_num2_caught d x e).
  - now apply (calculate_num1_caught d ValueError).
  - now apply (calculate_num1_caught d TypeError).
  - contradiction.
Qed.

(** Parsing comes before dispatch: a string that is not numeric is
    answered with the invalid-input message whatever the operation. *)
Lemma calculate_num1_not_numeric (d : dict) (s : string) :
  dict_get d "num1" = Some (PStr s) ->
  float_of_string s = Raise ValueError ->
  calculate (PDict d) = bad_request msg_invalid_input.
Proof.
  intros Hg Hs. apply (calculate_num1_caught d ValueError); [|reflexivity].
  unfold dict_get_or. now rewrite Hg.
Qed.

Lemma calculate_num2_not_numeric (d : dict) (s : string) :
  dict_get d "num2" = Some (PStr s) ->
  float_of_string s = Raise ValueError ->
  py_float (dict_get_or d "num1" (PInt 0)) <> Raise OverflowError ->
  calculate (PDict d) = bad_request msg_invalid_input.
Proof.
  intros Hg Hs Hno. apply (calculate_num2_invalid d ValueError); auto.
  unfold dict_get_or. now rewrite Hg.
Qed.

(** The three total operations are exact on integers below 2^53. *)
Lemma float_arith_int (op : string) (f : float -> float -> float)
    (g : Z -> Z -> Z) (x y : float) (a b : Z) :
  float_arith op = Some f -> int_arith op = Some g ->
  represents_int x a -> represents_int y b -> Z.abs (g a b) < 2 ^ 53 ->
  represents_int (f x y) (g a b).
Proof.
  unfold float_arith, int_arith. intros Hf Hg Hx Hy Hr.
  destruct (String.eqb op "add").
  { injection Hf as <-. injection Hg as <-. now apply fadd_int. }
  destruct (String.eqb op "subtract").
  { injection Hf as <-. injection Hg as <-. now apply fsub_int. }
  destruct (String.eqb op "multiply").
  { injection Hf as <-. injection Hg as <-. now apply fmul_int. }
  discriminate.
Qed.

Lemma int_arith_float_arith (op : string) (g : Z -> Z -> Z) :
  int_arith op = Some g -> exists f, float_arith op = Some f.
Proof.
  unfold float_arith, int_arith.
  destruct (String.eqb op "add"); [eauto|].
  destruct (String.eqb op "subtract"); [eauto|].
  destruct (String.eqb op "multiply"); [eauto|].
  discriminate.
Qed.

(** C1, as amended.  For all values that [float] converts to the
    doubles [x] and [y] (an absent field counts as 0) and every
    operation among add, subtract and multiply, the handler answers
    with status 200, echoes [x], [y] and the operation, and the result
    is the binary64 sum, difference or product of [x] and [y].  For
    integers [a] and [b] that lie, together with the result of the
    operation, strictly between -2^53 and 2^53, the echoed numbers
    stand for [a] and [b] and the result is the exact one. *)
Theorem calculate_arithmetic :
  (forall (d : dict) (x y : float) (op : string)
      (f : float -> float -> float),
      py_float (dict_get_or d "num1" (PInt 0)) = Ok x ->
      py_float (dict_get_or d "num2" (PInt 0)) = Ok y ->
      dict_get_or d "operation" (PStr "add") = PStr op ->
      float_arith op = Some f ->
      calculate (PDict d)
        = ok_response (calculation_body x y (PStr op) (f x y)))
  /\ (forall (a b : Z) (op : string) (g : Z -> Z -> Z),
      int_arith op = Some g ->
      Z.abs a < 2 ^ 53 -> Z.abs b < 2 ^ 53 -> Z.abs (g a b) < 2 ^ 53 ->
      exists x y r : float,
        calculate (calculation_request (PInt a) (PInt b) (PStr op))
          = ok_response (calculation_body x y (PStr op) r)
        /\ has_value x (inject_Z a)
        /\ has_value y (inject_Z b)
        /\ has_value r (inject_Z (g a b))).
Proof.
  split.
  - exact calculate_total_operation.
  - intros a b op g Hg Ha Hb Hr.
    destruct (float_of_int_exact a Ha) as (x & Hx & Rx).
    destruct (float_of_int_exact b Hb) as (y & Hy & Ry).
    destruct (int_arith_float_arith op g Hg) as [f Hf].
    exists x, y, (f x y). split; [|split; [|split]].
    + now apply calculate_total_operation.
    + now apply represents_int_value.
    + now apply represents_int_value.
    + apply represents_int_value.
      now apply (float_arith_int op f g x y a b).
Qed.

Lemma calculate_arithmetic_witness :
  calculate (calculation_request (PInt 10) (PInt 5) (PStr "add"))
    = ok_response
        (calculation_body float_ten float_five (PStr "add") float_fifteen)
  /\ exists x y r : float,
      calculate (calculation_request (PInt 10) (PInt 5) (PStr "multiply"))
        = ok_response (calculation_body x y (PStr "multiply") r)
      /\ has_value x (inject_Z 10)
      /\ has_value y (inject_Z 5)
      /\ has_value r (inject_Z (10 * 5)).
Proof.
  split.
  - exact (proj1 calculate_arithmetic
             [("num1", PInt 10); ("num2", PInt 5); ("operation", PStr "add")]
             float_ten float_five "add" fadd
             eq_refl eq_refl eq_refl eq_refl).
  - apply (proj2 calculate_arithmetic 10 5 "multiply" Z.mul);
      [reflexivity | reflexivity | reflexivity | reflexivity].
Defined.

(** C1, as worded, fails: 2^53 + 1 is not a double, and the handler
    answers 2^53. *)
Lemma calculate_add_not_exact :
  ~ returns_exact_result two_pow_53 float_one "add".
Proof.
  intros (r & qa & qb & q & qr & Hc & Ha & Hb & Hq & Hr & He).
  vm_compute in Hc. injection Hc as <-.
  cbn in Ha, Hb, Hq, Hr.
  injection Ha as <-. injection Hb as <-.
  injection Hq as <-. injection Hr as <-.
  vm_compute in He. discriminate He.
Qed.

(** Division of convertible operands.  For all values that [float]
    converts to the doubles [x] and
    [y], the operation divide answers with status 200 and the quotient
    [x / y] when [y] is not zero, and with status 400 and the message
    "Cannot divide by zero" when it is, whatever [x]. *)
Theorem calculate_divide (d : dict) (x y : float) :
  py_float (dict_get_or d "num1" (PInt 0)) = Ok x ->
  py_float (dict_get_or d "num2" (PInt 0)) = Ok y ->
  dict_get_or d "operation" (PStr "add") = PStr "divide" ->
  (feqb y fzero = false ->
     calculate (PDict d)
       = ok_response (calculation_body x y (PStr "divide") (fdiv x y)))
  /\ (feqb y fzero = true ->
     calculate (PDict d) = bad_request msg_divide_by_zero).
Proof.
  intros H1 H2 H3.
  split; intros Hz; calc_unfold;
    rewrite H1; cbn [bind]; rewrite H2; cbn [bind]; rewrite H3;
    cbn [py_eq_str String.eqb Ascii.eqb Bool.eqb]; rewrite Hz.
  - unfold float_truediv. now rewrite Hz.
  - reflexivity.
Qed.

Lemma calculate_divide_witness :
  calculate (calculation_request (PInt 1) (PInt 3) (PStr "divide"))
    = ok_response
        (calculation_body float_one float_three (PStr "divide")
           (S754_finite false 6004799503160661 (-54)))
  /\ calculate (calculation_request (PInt 10) (PInt 0) (PStr "divide"))
    = bad_request msg_divide_by_zero.
Proof.
  split.
  - exact (proj1 (calculate_divide
             [("num1", PInt 1); ("num2", PInt 3); ("operation", PStr "divide")]
             float_one float_three eq_refl eq_refl eq_refl) eq_refl).
  - exact (proj2 (calculate_divide
             [("num1", PInt 10); ("num2", PInt 0); ("operation", PStr "divide")]
             float_ten fzero eq_refl eq_refl eq_refl) eq_refl).
Defined.

(** Unknown operations on convertible operands.  For all values that
    [float] converts to doubles and every
    operation string other than add, subtract, multiply and divide, the
    handler answers with status 400 and the invalid-operation message. *)
Theorem calculate_invalid_operation (d : dict) (x y : float) (op : string) :
  py_float (dict_get_or d "num1" (PInt 0)) = Ok x ->
  py_float (dict_get_or d "num2" (PInt 0)) = Ok y ->
  dict_get_or d "operation" (PStr "add") = PStr op ->
  ~ In op ["add"; "subtract"; "multiply"; "divide"] ->
  calculate (PDict d) = bad_request msg_invalid_operation.
Proof.
  intros H1 H2 H3 Hop.
  apply (calculate_operation_unmatched d x y (PStr op)); auto;
    cbn [py_eq_str]; apply String.eqb_neq; intros ->; apply Hop;
    cbn; auto.
Qed.

Lemma calculate_invalid_operation_witness :
  calculate (calculation_request (PInt 10) (PInt 5) (PStr "power"))
    = bad_request msg_invalid_operation.
Proof.
  apply (calculate_invalid_operation
           [("num1", PInt 10); ("num2", PInt 5); ("operation", PStr "power")]
           float_ten float_five "power"); try reflexivity.
  cbn. intros [H|[H|[H|[H|[]]]]]; discriminate H.
Defined.

(** C3.  An integer too large for a double in [num1] makes [float]
    raise [OverflowError], which the handler does not catch: the
    exception leaves it although [num2] is a string that is not
    numeric, where the invalid-input answer was due. *)
Theorem calculate_overflow_precedes_invalid_string :
  float_of_string "abc" = Raise ValueError
  /\ calculate (calculation_request (PInt huge_int) (PStr "abc") (PStr "add"))
     = Raise OverflowError.
Proof.
  split; vm_compute; reflexivity.
Qed.

(** C5.  Leaving [num1] or [num2] out gives the outcome of supplying 0
    for it, leaving [operation] out gives the outcome of supplying
    "add", and a 0 that is supplied enters the computation as the
    number zero. *)
Theorem calculate_defaults (d : dict) :
  calculate (PDict (dict_remove d "num1"))
    = calculate (PDict (dict_set d "num1" (PInt 0)))
  /\ calculate (PDict (dict_remove d "num2"))
    = calculate (PDict (dict_set d "num2" (PInt 0)))
  /\ calculate (PDict (dict_remove d "operation"))
    = calculate (PDict (dict_set d "operation" (PStr "add")))
  /\ (forall (op : string) (f : float -> float -> float) (y : float),
        float_arith op = Some f ->
        dict_get_or d "operation" (PStr "add") = PStr op ->
        py_float (dict_get_or d "num2" (PInt 0)) = Ok y ->
        calculate (PDict (dict_set d "num1" (PInt 0)))
          = ok_response (calculation_body fzero y (PStr op) (f fzero y)))
  /\ (forall (op : string) (f : float -> float -> float) (x : float),
        float_arith op = Some f ->
        dict_get_or d "operation" (PStr "add") = PStr op ->
        py_float (dict_get_or d "num1" (PInt 0)) = Ok x ->
        calculate (PDict (dict_set d "num2" (PInt 0)))
          = ok_response (calculation_body x fzero (PStr op) (f x fzero))).
Proof.
  split; [|split; [|split; [|split]]].
  - apply calculate_with_congr; unfold dict_get_or;
      rewrite ?dict_get_remove_same, ?dict_get_set_same,
        ?dict_get_remove_other, ?dict_get_set_other by discriminate;
      reflexivity.
  - apply calculate_with_congr; unfold dict_get_or;
      rewrite ?dict_get_remove_same, ?dict_get_set_same,
        ?dict_get_remove_other, ?dict_get_set_other by discriminate;
      reflexivity.
  - apply calculate_with_congr; unfold dict_get_or;
      rewrite ?dict_get_remove_same, ?dict_get_set_same,
        ?dict_get_remove_other, ?dict_get_set_other by discriminate;
      reflexivity.
  - intros op f y Hf Hop Hy.
    apply calculate_total_operation; auto; unfold dict_get_or in *;
      rewrite ?dict_get_set_same, ?dict_get_set_other by discriminate;
      auto.
  - intros op f x Hf Hop Hx.
    apply calculate_total_operation; auto; unfold dict_get_or in *;
      rewrite ?dict_get_set_same, ?dict_get_set_other by discriminate;
      auto.
Qed.

Lemma calculate_defaults_witness :
  calculate (PDict [("num2", PInt 5)])
    = calculate (PDict [("num2", PInt 5); ("num1", PInt 0)])
  /\ calculate (PDict [("num2", PInt 5); ("num1", PInt 0)])
    = ok_response (calculation_body fzero float_five (PStr "add") float_five).
Proof.
  split.
  - exact (proj1 (calculate_defaults [("num2", PInt 5)])).
  - exact (proj1 (proj2 (proj2 (proj2 (calculate_defaults [("num2", PInt 5)]))))
             "add" fadd float_five eq_refl eq_refl eq_refl).
Defined.

(** C6.  The handler never fails with [ZeroDivisionError], and its
    outcome does not depend on what the division does at a zero
    divisor: the division is reached at non-zero divisors only. *)
Theorem division_guarded (request_data : pyval) :
  calculate request_data <> Raise ZeroDivisionError
  /\ forall div1 div2 : float -> float -> result float,
       (forall x y, feqb y fzero = false -> div1 x y = div2 x y) ->
       calculate_with div1 request_data = calculate_with div2 request_data.
Proof.
  split.
  - destruct request_data as [| | | | | |d]; try (cbn; discriminate).
    calc_unfold.
    destruct (py_float_outcomes (dict_get_or d "num1" (PInt 0)))
      as [[x ->] | [-> | [-> | ->]]]; try (cbn; discriminate).
    cbn [bind].
    destruct (py_float_outcomes (dict_get_or d "num2" (PInt 0)))
      as [[y ->] | [-> | [-> | ->]]]; try (cbn; discriminate).
    cbn [bind].
    destruct (py_eq_str _ "add"); [cbn; discriminate|].
    destruct (py_eq_str _ "subtract"); [cbn; discriminate|].
    destruct (py_eq_str _ "multiply"); [cbn; discriminate|].
    destruct (py_eq_str _ "divide"); [|cbn; discriminate].
    destruct (feqb y fzero) eqn:Hz; [cbn; discriminate|].
    unfold float_truediv. rewrite Hz. cbn. discriminate.
  - intros div1 div2 Hdiv.
    destruct request_data as [| | | | | |d]; try reflexivity.
    unfold calculate_with. cbn [py_get bind].
    destruct (py_float (dict_get_or d "num1" (PInt 0))) as [x|e];
      [|reflexivity].
    cbn [bind].
    destruct (py_float (dict_get_or d "num2" (PInt 0))) as [y|e];
      [|reflexivity].
    cbn [bind].
    destruct (py_eq_str _ "add"); [reflexivity|].
    destruct (py_eq_str _ "subtract"); [reflexivity|].
    destruct (py_eq_str _ "multiply"); [reflexivity|].
    destruct (py_eq_str _ "divide"); [|reflexivity].
    destruct (feqb y fzero) eqn:Hz; [reflexivity|].
    now rewrite (Hdiv x y Hz).
Qed.

Lemma division_guarded_witness :
  calculate_with float_truediv
      (calculation_request (PInt 10) (PInt 0) (PStr "divide"))
    = calculate_with (fun x y => Ok (fdiv x y))
        (calculation_request (PInt 10) (PInt 0) (PStr "divide")).
Proof.
  apply (proj2 (division_guarded
                  (calculation_request (PInt 10) (PInt 0) (PStr "divide")))).
  intros x y Hz. unfold float_truediv. rewrite Hz. reflexivity.
Defined.

(** The outcomes of the handler on a dictionary: the success answer, a
    400 answer with one of the three messages, or an escaping
    [OverflowError]. *)
Lemma calculate_outcomes (d : dict) :
  (exists x y op r,
      calculate (PDict d) = ok_response (calculation_body x y op r))
  \/ (exists msg,
      In msg [msg_invalid_input; msg_divide_by_zero; msg_invalid_operation]
      /\ calculate (PDict d) = bad_request msg)
  \/ calculate (PDict d) = Raise OverflowError.
Proof.
  calc_unfold.
  destruct (py_float_outcomes (dict_get_or d "num1" (PInt 0)))
    as [[x ->] | [-> | [-> | ->]]];
    try (right; left; exists msg_invalid_input; cbn; auto; fail);
    try (right; right; reflexivity).
  cbn [bind].
  destruct (py_float_outcomes (dict_get_or d "num2" (PInt 0)))
    as [[y ->] | [-> | [-> | ->]]];
    try (right; left; exists msg_invalid_input; cbn; auto; fail);
    try (right; right; reflexivity).
  cbn [bind].
  destruct (py_eq_str _ "add"); [left; do 4 eexists; reflexivity|].
  destruct (py_eq_str _ "subtract"); [left; do 4 eexists; reflexivity|].
  destruct (py_eq_str _ "multiply"); [left; do 4 eexists; reflexivity|].
  destruct (py_eq_str _ "divide").
  - destruct (feqb y fzero) eqn:Hz.
    + right; left; exists msg_divide_by_zero; cbn; auto.
    + left. unfold float_truediv. rewrite Hz. do 4 eexists; reflexivity.
  - right; left; exists msg_invalid_operation; cbn; auto.
Qed.


(** C7.  On the body with the single field [num1] holding an integer
    too large for a double, the handler gives no response: the
    [OverflowError] of [float] is not among the exceptions it catches
    and leaves it. *)
Theorem calculate_overflow_escapes :
  py_float (PInt huge_int) = Raise OverflowError
  /\ catches [ValueError; TypeError] OverflowError = false
  /\ calculate (PDict [("num1", PInt huge_int)]) = Raise OverflowError.
Proof.
  split; [|split]; vm_compute; reflexivity.
Qed.

(** The outcome, status and body, is a function of the values of
    the three fields: two bodies that agree on [num1], [num2] and
    [operation] get the same outcome. *)
Theorem calculate_same_fields_same_outcome (d1 d2 : dict) :
  dict_get d1 "num1" = dict_get d2 "num1" ->
  dict_get d1 "num2" = dict_get d2 "num2" ->
  dict_get d1 "operation" = dict_get d2 "operation" ->
  calculate (PDict d1) = calculate (PDict d2).
Proof.
  intros H1 H2 H3. apply calculate_with_congr; unfold dict_get_or;
    now rewrite ?H1, ?H2, ?H3.
Qed.

Lemma calculate_same_fields_same_outcome_witness :
  calculate (calculation_request (PInt 10) (PInt 5) (PStr "subtract"))
    = calculate (PDict [("operation", PStr "subtract"); ("note", PNone);
                        ("num2", PInt 5); ("num1", PInt 10)]).
Proof.
  apply (calculate_same_fields_same_outcome
           [("num1", PInt 10); ("num2", PInt 5);
            ("operation", PStr "subtract")]
           [("operation", PStr "subtract"); ("note", PNone);
            ("num2", PInt 5); ("num1", PInt 10)]); reflexivity.
Defined.

(** C9.  When the body decodes to a value, the echo view suspends once
    and answers with status 200 and the value, as decoded, under
    [received] next to [processed] set to true; when decoding raises,
    the exception leaves the view as it is, before any suspension, and
    no answer, hence no 400 answer, is made. *)
Theorem process_data_outcome (json_loads : string -> result pyval)
    (body : string) :
  (forall v, json_loads body = Ok v ->
     process_data json_loads body
       = ([Sleep 200],
          ok_response (PDict [("received", v); ("processed", PBool true)])))
  /\ (forall e, json_loads body = Raise e ->
     process_data json_loads body = ([], Raise e))
  /\ (forall r, snd (process_data json_loads body) = Ok r ->
     status r = HTTP_200_OK /\ exists v, json_loads body = Ok v).
Proof.
  unfold process_data. repeat split.
  - intros v ->. reflexivity.
  - intros e ->. reflexivity.
  - destruct (json_loads body); cbn in H; [|discriminate].
    now injection H as <-.
  - destruct (json_loads body); cbn in H; [eauto|discriminate].
Qed.

Lemma process_data_outcome_witness :
  process_data json_loads_scalar "42"
    = ([Sleep 200],
       ok_response (PDict [("received", PInt 42); ("processed", PBool true)]))
  /\ process_data json_loads_scalar "4 2" = ([], Raise JSONDecodeError).
Proof.
  split.
  - exact (proj1 (process_data_outcome json_loads_scalar "42")
             (PInt 42) eq_refl).
  - exact (proj1 (proj2 (process_data_outcome json_loads_scalar "4 2"))
             JSONDecodeError eq_refl).
Defined.

(** C10, as amended.  A null [num1] is answered with status 400 and
    the invalid-input message; so is a null [num2] unless the
    conversion of [num1] overflows; a null [operation] is answered with
    status 400 and the invalid-operation message when [num1] and [num2]
    are each absent or convertible. *)
Theorem calculate_null_fields (d : dict) :
  (dict_get d "num1" = Some PNone ->
     calculate (PDict d) = bad_request msg_invalid_input)
  /\ (dict_get d "num2" = Some PNone ->
      py_float (dict_get_or d "num1" (PInt 0)) <> Raise OverflowError ->
      calculate (PDict d) = bad_request msg_invalid_input)
  /\ (dict_get d "operation" = Some PNone ->
      forall x y,
        py_float (dict_get_or d "num1" (PInt 0)) = Ok x ->
        py_float (dict_get_or d "num2" (PInt 0)) = Ok y ->
        calculate (PDict d) = bad_request msg_invalid_operation).
Proof.
  split; [|split].
  - intros Hg. apply (calculate_num1_caught d TypeError); [|reflexivity].
    unfold dict_get_or. now rewrite Hg.
  - intros Hg Hno. apply (calculate_num2_invalid d TypeError); auto.
    unfold dict_get_or. now rewrite Hg.
  - intros Hg x y Hx Hy.
    apply (calculate_operation_unmatched d x y PNone); auto.
    unfold dict_get_or. now rewrite Hg.
Qed.

Lemma calculate_null_fields_witness :
  calculate (calculation_request PNone (PInt 5) (PStr "add"))
    = bad_request msg_invalid_input
  /\ calculate (calculation_request (PInt 10) PNone (PStr "add"))
    = bad_request msg_invalid_input
  /\ calculate (calculation_request (PInt 10) (PInt 5) PNone)
    = bad_request msg_invalid_operation.
Proof.
  split; [|split].
  - exact (proj1 (calculate_null_fields
             [("num1", PNone); ("num2", PInt 5); ("operation", PStr "add")])
             eq_refl).
  - apply (proj1 (proj2 (calculate_null_fields
             [("num1", PInt 10); ("num2", PNone); ("operation", PStr "add")])));
      [reflexivity | vm_compute; discriminate].
  - exact (proj2 (proj2 (calculate_null_fields
             [("num1", PInt 10); ("num2", PInt 5); ("operation", PNone)]))
             eq_refl float_ten float_five eq_refl eq_refl).
Defined.

(** C10, as worded, fails: with a [num1] that is not numeric, a null
    [operation] is answered with the invalid-input message. *)
Lemma null_operation_after_bad_number : ~ null_fields_rejected.
Proof.
  intros H.
  destruct (H [("num1", PStr "abc"); ("operation", PNone)]) as (_ & _ & Hop).
  specialize (Hop eq_refl). vm_compute in Hop. discriminate Hop.
Qed.

(** ** The scenarios of the specification, run *)

Example scenario_add :
  calculate (calculation_request (PInt 10) (PInt 5) (PStr "add"))
    = ok_response
        (calculation_body float_ten float_five (PStr "add") float_fifteen).
Proof. vm_compute. reflexivity. Qed.

Example scenario_divide_by_zero :
  calculate (calculation_request (PInt 10) (PInt 0) (PStr "divide"))
    = bad_request msg_divide_by_zero.
Proof. vm_compute. reflexivity. Qed.

Example scenario_defaults :
  calculate (PDict [("operation", PStr "multiply")])
    = ok_response (calculation_body fzero fzero (PStr "multiply") fzero).
Proof. vm_compute. reflexivity. Qed.

Example scenario_not_a_number :
  calculate (calculation_request (PStr "abc") (PInt 5) (PStr "add"))
    = bad_request msg_invalid_input.
Proof. vm_compute. reflexivity. Qed.

(** Strings that [float] takes for numbers are operands like any
    other, also the names of the infinities and of the not-a-number. *)
Example scenario_numeric_strings :
  calculate (calculation_request (PStr " 1_0 ") (PStr "5e0") (PStr "add"))
    = ok_response
        (calculation_body float_ten float_five (PStr "add") float_fifteen)
  /\ calculate (calculation_request (PStr "inf") (PStr "-Infinity") (PStr "add"))
    = ok_response
        (calculation_body (S754_infinity false) (S754_infinity true)
           (PStr "add") S754_nan).
Proof. split; vm_compute; reflexivity. Qed.

(** ** Further properties of the calculator view *)

Lemma operands_outcomes (d : dict) :
  (exists x y, operands d = Ok (x, y))
  \/ operands d = Raise ValueError
  \/ operands d = Raise TypeError
  \/ operands d = Raise OverflowError.
Proof.
  unfold operands.
  destruct (py_float_outcomes (dict_get_or d "num1" (PInt 0)))
    as [[x ->] | [-> | [-> | ->]]]; cbn [bind]; auto.
  destruct (py_float_outcomes (dict_get_or d "num2" (PInt 0)))
    as [[y ->] | [-> | [-> | ->]]]; cbn [bind]; eauto.
Qed.

Lemma operands_ok (d : dict) (x y : float) :
  operands d = Ok (x, y) <->
  py_float (dict_get_or d "num1" (PInt 0)) = Ok x
  /\ py_float (dict_get_or d "num2" (PInt 0)) = Ok y.
Proof.
  unfold operands. split.
  - destruct (py_float (dict_get_or d "num1" (PInt 0))); [|discriminate].
    cbn [bind].
    destruct (py_float (dict_get_or d "num2" (PInt 0))); [|discriminate].
    cbn [bind]. intros H. injection H as -> ->. auto.
  - intros [-> ->]. reflexivity.
Qed.

(** The handler, by cases on the conversions. *)
Lemma calculate_by_operands (d : dict) :
  calculate (PDict d) =
    match operands d with
    | Raise e =>
        if catches [ValueError; TypeError] e
        then bad_request msg_invalid_input else Raise e
    | Ok (x, y) =>
        let op := dict_get_or d "operation" (PStr "add") in
        if py_eq_str op "add" then
          ok_response (calculation_body x y op (fadd x y))
        else if py_eq_str op "subtract" then
          ok_response (calculation_body x y op (fsub x y))
        else if py_eq_str op "multiply" then
          ok_response (calculation_body x y op (fmul x y))
        else if py_eq_str op "divide" then
          if feqb y fzero then bad_request msg_divide_by_zero
          else ok_response (calculation_body x y op (fdiv x y))
        else bad_request msg_invalid_operation
    end.
Proof.
  unfold calculate, calculate_with, operands. cbn [py_get bind].
  destruct (py_float (dict_get_or d "num1" (PInt 0))) as [x|e];
    [|reflexivity].
  cbn [bind].
  destruct (py_float (dict_get_or d "num2" (PInt 0))) as [y|e];
    [|reflexivity].
  cbn [bind].
  destruct (py_eq_str _ "add"); [reflexivity|].
  destruct (py_eq_str _ "subtract"); [reflexivity|].
  destruct (py_eq_str _ "multiply"); [reflexivity|].
  destruct (py_eq_str _ "divide"); [|reflexivity].
  unfold float_truediv.
  destruct (feqb y fzero); reflexivity.
Qed.

Lemma py_eq_str_true (v : pyval) (s : string) :
  py_eq_str v s = true <-> v = PStr s.
Proof.
  destruct v; cbn; try (split; [discriminate | intros H; discriminate H]).
  rewrite String.eqb_eq. split; [now intros -> | now intros [= ->]].
Qed.

(** X1.  The handler answers with status 200 exactly when both
    operands convert, the operation is a string naming one of the four
    operations and, for divide, the divisor is not zero; the body then
    carries the converted operands, the operation and the result of
    the operation. *)
Theorem calculate_success_iff (d : dict) (body : pyval) :
  calculate (PDict d) = ok_response body <->
  exists (x y : float) (op : string) (res : float),
    operands d = Ok (x, y)
    /\ dict_get_or d "operation" (PStr "add") = PStr op
    /\ computes op x y res
    /\ body = calculation_body x y (PStr op) res.
Proof.
  rewrite calculate_by_operands. split.
  - destruct (operands d) as [[x y]|e].
    + cbv zeta.
      destruct (py_eq_str _ "add") eqn:Ea.
      { apply py_eq_str_true in Ea. rewrite Ea. intros [= <-].
        exists x, y, "add", (fadd x y). repeat split.
        left. exists fadd. now split. }
      destruct (py_eq_str _ "subtract") eqn:Es.
      { apply py_eq_str_true in Es. rewrite Es. intros [= <-].
        exists x, y, "subtract", (fsub x y). repeat split.
        left. exists fsub. now split. }
      destruct (py_eq_str _ "multiply") eqn:Em.
      { apply py_eq_str_true in Em. rewrite Em. intros [= <-].
        exists x, y, "multiply", (fmul x y). repeat split.
        left. exists fmul. now split. }
      destruct (py_eq_str _ "divide") eqn:Ed; [|discriminate].
      destruct (feqb y fzero) eqn:Hz; [discriminate|].
      apply py_eq_str_true in Ed. rewrite Ed. intros [= <-].
      exists x, y, "divide", (fdiv x y). repeat split.
      right. now repeat split.
    + destruct (catches _ e); discriminate.
  - intros (x & y & op & res & -> & -> & Hc & ->). cbv zeta.
    cbn [py_eq_str].
    destruct Hc as [(f & Hf & ->) | (-> & Hz & ->)].
    + unfold float_arith in Hf.
      destruct (String.eqb op "add"); [now injection Hf as <-|].
      destruct (String.eqb op "subtract"); [now injection Hf as <-|].
      destruct (String.eqb op "multiply"); [now injection Hf as <-|].
      discriminate.
    + cbn. now rewrite Hz.
Qed.

(** X2.  Each of the three 400 answers has its own cause: the
    invalid-input message answers a [ValueError] or [TypeError] of the
    first conversion that fails, the divide-by-zero message a zero
    divisor under divide, and the invalid-operation message an
    operation that is none of the four names, both operands being
    convertible in the last two cases. *)
Theorem calculate_bad_request_iff (d : dict) (msg : string) :
  calculate (PDict d) = bad_request msg <->
  (msg = msg_invalid_input
   /\ (operands d = Raise ValueError \/ operands d = Raise TypeError))
  \/ (msg = msg_divide_by_zero
      /\ exists x y, operands d = Ok (x, y)
         /\ dict_get_or d "operation" (PStr "add") = PStr "divide"
         /\ feqb y fzero = true)
  \/ (msg = msg_invalid_operation
      /\ exists x y, operands d = Ok (x, y)
         /\ forall name, In name ["add"; "subtract"; "multiply"; "divide"] ->
              dict_get_or d "operation" (PStr "add") <> PStr name).
Proof.
  rewrite calculate_by_operands. split.
  - destruct (operands_outcomes d) as [(x & y & ->) | [-> | [-> | ->]]].
    + cbv zeta.
      destruct (py_eq_str _ "add") eqn:Ea; [discriminate|].
      destruct (py_eq_str _ "subtract") eqn:Es; [discriminate|].
      destruct (py_eq_str _ "multiply") eqn:Em; [discriminate|].
      destruct (py_eq_str _ "divide") eqn:Ed.
      * destruct (feqb y fzero) eqn:Hz; [|discriminate].
        intros [= <-]. right; left. split; [reflexivity|].
        exists x, y. apply py_eq_str_true in Ed. auto.
      * intros [= <-]. right; right. split; [reflexivity|].
        exists x, y. split; [reflexivity|].
        intros name Hin Heq. apply py_eq_str_true in Heq.
        cbn in Hin. destruct Hin as [<-|[<-|[<-|[<-|[]]]]]; congruence.
    + cbn. intros [= <-]. left. auto.
    + cbn. intros [= <-]. left. auto.
    + cbn. discriminate.
  - intros [(-> & [-> | ->]) | [(-> & x & y & -> & Hop & Hz)
                               | (-> & x & y & -> & Hop)]].
    + reflexivity.
    + reflexivity.
    + cbv zeta. rewrite Hop. cbn. now rewrite Hz.
    + cbv zeta.
      assert (Hn : forall name,
                 In name ["add"; "subtract"; "multiply"; "divide"] ->
                 py_eq_str (dict_get_or d "operation" (PStr "add")) name
                 = false).
      { intros name Hin.
        destruct (py_eq_str _ name) eqn:E; [|reflexivity].
        apply py_eq_str_true in E. now elim (Hop name Hin). }
      rewrite !Hn by (cbn; auto). reflexivity.
Qed.


(** X4.  The handler sees [num1] and [num2] through [float] only: two
    values with the same conversion, such as [true], [1], [1.0] and the
    string "1", are interchangeable in a body. *)
Theorem calculate_through_float (d : dict) (v v' : pyval) :
  py_float v = py_float v' ->
  calculate (PDict (dict_set d "num1" v))
    = calculate (PDict (dict_set d "num1" v'))
  /\ calculate (PDict (dict_set d "num2" v))
    = calculate (PDict (dict_set d "num2" v')).
Proof.
  intros H. split; rewrite !calculate_by_operands; unfold operands, dict_get_or;
    rewrite ?dict_get_set_same, ?dict_get_set_other by discriminate;
    now rewrite H.
Qed.

Lemma calculate_through_float_witness :
  calculate (PDict [("num1", PBool true); ("num2", PStr " 1e0 ")])
    = calculate (PDict [("num1", PInt 1); ("num2", PFloat float_one)]).
Proof.
  transitivity (calculate (PDict [("num1", PInt 1); ("num2", PStr " 1e0 ")])).
  - exact (proj1 (calculate_through_float
                    [("num1", PNone); ("num2", PStr " 1e0 ")]
                    (PBool true) (PInt 1) eq_refl)).
  - exact (proj2 (calculate_through_float
                    [("num1", PInt 1); ("num2", PNone)]
                    (PStr " 1e0 ") (PFloat float_one) eq_refl)).
Defined.

Lemma fadd_comm (x y : float) : fadd x y = fadd y x.
Proof.
  destruct x as [sx|sx| |sx mx ex], y as [sy|sy| |sy my ey];
    try reflexivity; try (destruct sx, sy; reflexivity).
  unfold fadd, SFadd. rewrite (Z.min_comm ey ex). f_equal. apply Z.add_comm.
Qed.

Lemma fmul_comm (x y : float) : fmul x y = fmul y x.
Proof.
  destruct x as [sx|sx| |sx mx ex], y as [sy|sy| |sy my ey];
    try reflexivity; cbn; try (now rewrite xorb_comm).
  now rewrite xorb_comm, Pos.mul_comm, Z.add_comm.
Qed.

(** X5.  Addition and multiplication are symmetric: exchanging [num1]
    and [num2] exchanges the two echoed numbers and leaves the result
    as it is. *)
Theorem calculate_commutative (a b : pyval) (op : string) (x y r : float) :
  op = "add" \/ op = "multiply" ->
  calculate (calculation_request a b (PStr op))
    = ok_response (calculation_body x y (PStr op) r) ->
  calculate (calculation_request b a (PStr op))
    = ok_response (calculation_body y x (PStr op) r).
Proof.
  intros Hop. unfold calculation_request.
  rewrite !calculate_by_operands. unfold operands.
  cbn [dict_get_or dict_get String.eqb Ascii.eqb Bool.eqb].
  destruct (py_float a) as [x'|e]; cbn [bind].
  - destruct (py_float b) as [y'|e]; cbn [bind].
    + destruct Hop as [-> | ->]; cbn; intros [= <- <- <-].
      * now rewrite fadd_comm.
      * now rewrite fmul_comm.
    + destruct (catches _ e); discriminate.
  - destruct (catches _ e); discriminate.
Qed.

Lemma calculate_commutative_witness :
  calculate (calculation_request (PInt 5) (PInt 10) (PStr "add"))
    = ok_response
        (calculation_body float_five float_ten (PStr "add") float_fifteen).
Proof.
  apply (calculate_commutative (PInt 10) (PInt 5) "add");
    [left; reflexivity | reflexivity].
Defined.

Lemma fsub_fadd_fopp (x y : float) : fsub x y = fadd x (fopp y).
Proof.
  destruct x as [sx|sx| |sx mx ex], y as [sy|sy| |sy my ey];
    try reflexivity; destruct sx, sy; reflexivity.
Qed.

(** X6.  Subtracting [y] is adding its negation: the result of
    subtract on the doubles [x] and [y] is the result of add on [x]
    and [-y], signed zeros, infinities and the not-a-number
    included. *)
Theorem calculate_subtract_is_add_negated (a : pyval) (x y : float) :
  py_float a = Ok x ->
  calculate (calculation_request a (PFloat y) (PStr "subtract"))
    = ok_response (calculation_body x y (PStr "subtract") (fsub x y))
  /\ calculate (calculation_request a (PFloat (fopp y)) (PStr "add"))
    = ok_response (calculation_body x (fopp y) (PStr "add") (fsub x y)).
Proof.
  intros Ha. split.
  - apply (calculate_total_operation _ x y "subtract" fsub); auto.
  - rewrite fsub_fadd_fopp.
    apply (calculate_total_operation _ x (fopp y) "add" fadd); auto.
Qed.

Lemma calculate_subtract_is_add_negated_witness :
  calculate (calculation_request (PInt 10) (PFloat float_five) (PStr "subtract"))
    = ok_response
        (calculation_body float_ten float_five (PStr "subtract") float_five)
  /\ calculate
       (calculation_request (PInt 10) (PFloat (fopp float_five)) (PStr "add"))
    = ok_response
        (calculation_body float_ten (fopp float_five) (PStr "add") float_five).
Proof.
  exact (calculate_subtract_is_add_negated (PInt 10) float_ten float_five
           eq_refl).
Defined.

Lemma fadd_zero_r (x : float) :
  fadd x fzero = match x with S754_zero true => fzero | _ => x end.
Proof. destruct x as [[|]| | |]; reflexivity. Qed.

(** X7.  A body with nothing but [num1] gets its number back: both
    defaults apply, 0 is added, and the result is the echoed [num1];
    only the negative zero comes back as the positive one. *)
Theorem calculate_num1_alone (v : pyval) (x : float) :
  py_float v = Ok x ->
  calculate (PDict [("num1", v)])
    = ok_response
        (calculation_body x fzero (PStr "add")
           (match x with S754_zero true => fzero | _ => x end)).
Proof.
  intros Hv. rewrite <- fadd_zero_r.
  apply (calculate_total_operation _ x fzero "add" fadd); auto.
Qed.

Lemma calculate_num1_alone_witness :
  calculate (PDict [("num1", PStr "10")])
    = ok_response (calculation_body float_ten fzero (PStr "add") float_ten)
  /\ calculate (PDict [("num1", PStr "-0.0")])
    = ok_response
        (calculation_body (S754_zero true) fzero (PStr "add") fzero).
Proof.
  split.
  - exact (calculate_num1_alone (PStr "10") float_ten eq_refl).
  - exact (calculate_num1_alone (PStr "-0.0") (S754_zero true) eq_refl).
Defined.

(** X8.  An operation that is not a string, be it a number, a
    boolean, null, a list or a dictionary, is no operation: with
    convertible operands the answer is the invalid-operation one. *)
Theorem calculate_operation_not_string (d : dict) (x y : float) :
  operands d = Ok (x, y) ->
  (forall s, dict_get_or d "operation" (PStr "add") <> PStr s) ->
  calculate (PDict d) = bad_request msg_invalid_operation.
Proof.
  intros Ho Hs. apply operands_ok in Ho. destruct Ho as [Hx Hy].
  apply (calculate_operation_unmatched d x y
           (dict_get_or d "operation" (PStr "add"))); auto;
    destruct (dict_get_or d "operation" (PStr "add")) as [| | | |s| |];
    try reflexivity; now elim (Hs s).
Qed.

Lemma calculate_operation_not_string_witness :
  calculate (calculation_request (PInt 10) (PInt 5) (PList [PStr "add"]))
    = bad_request msg_invalid_operation.
Proof.
  apply (calculate_operation_not_string _ float_ten float_five);
    [reflexivity | intros s; discriminate].
Defined.

Lemma div_eucl_exact (c b : Z) : 0 < b -> Z.div_eucl (c * b) b = (c, 0).
Proof.
  intros Hb.
  pose proof (Z.div_mul c b ltac:(lia)) as Hd.
  pose proof (Z.mod_mul c b ltac:(lia)) as Hm.
  unfold Z.div, Z.modulo in Hd, Hm.
  destruct (Z.div_eucl (c * b) b) as [q r]. cbn in Hd, Hm. congruence.
Qed.

Lemma new_location_zero (n : Z) : new_location n 0 = loc_Exact.
Proof.
  unfold new_location, new_location_even, new_location_odd.
  destruct (Z.even n); reflexivity.
Qed.

Lemma represents_int_finite (s : bool) (m : positive) (e a : Z) :
  represents_int (S754_finite s m e) a ->
  e <= 0 /\ Zpos m = Z.abs a * 2 ^ (- e) /\ a <> 0
  /\ cond_Zopp s (Z.abs a) = a.
Proof.
  cbn. intros [He Hm].
  assert (H2 : 0 < 2 ^ (- e)) by (apply Z.pow_pos_nonneg; lia).
  destruct s; cbn [cond_Zopp] in *; repeat split; try lia; nia.
Qed.

Lemma fdiv_int (x y : float) (a b c : Z) :
  represents_int x a -> represents_int y b ->
  b <> 0 -> a = c * b -> Z.abs a < 2 ^ 53 ->
  represents_int (fdiv x y) c.
Proof.
  intros Hx Hy Hb Ha Hs.
  destruct y as [sy|sy| |sy my ey]; cbn [represents_int] in Hy;
    try contradiction; try lia.
  destruct x as [sx|sx| |sx mx ex]; cbn [represents_int] in Hx;
    try contradiction.
  { cbn. nia. }
  apply represents_int_finite in Hx, Hy.
  destruct Hx as (Hex & Hmx & Ha0 & Hsx), Hy as (Hey & Hmy & _ & Hsy).
  assert (Hc0 : c <> 0) by nia.
  assert (Hcb : Z.abs a = Z.abs c * Z.abs b) by (subst a; apply Z.abs_mul).
  assert (Hclt : Z.abs c < 2 ^ 53) by nia.
  assert (Hpx : 0 < 2 ^ (- ex)) by (apply Z.pow_pos_nonneg; lia).
  assert (Hpy : 0 < 2 ^ (- ey)) by (apply Z.pow_pos_nonneg; lia).
  unfold fdiv, SFdiv, SFdiv_core_binary.
  rewrite !Zdigits2_log2 by lia.
  rewrite Hmx, Hmy, !Z.log2_mul_pow2 by lia.
  set (D := - ex + Z.log2 (Z.abs a) + 1 + ex
            - (- ey + Z.log2 (Z.abs b) + 1 + ey)).
  assert (HD : D <= 52).
  { pose proof (log2_small (Z.abs a) ltac:(lia) Hs).
    pose proof (Z.log2_nonneg (Z.abs b)). unfold D. lia. }
  set (e' := Z.min (fexp prec emax D) (ex - ey)).
  assert (He' : e' <= 0 /\ e' <= ex - ey)
    by (unfold e', fexp, emin, prec, emax; lia).
  assert (Hpe : 0 < 2 ^ (- e')) by (apply Z.pow_pos_nonneg; lia).
  assert (Hnum :
    match ex - ey - e' with
    | 0 => Z.abs a * 2 ^ (- ex)
    | Zpos _ => Z.shiftl (Z.abs a * 2 ^ (- ex)) (ex - ey - e')
    | Zneg _ => 0
    end = (Z.abs c * 2 ^ (- e')) * (Z.abs b * 2 ^ (- ey))).
  { assert (Hgen : Z.abs a * 2 ^ (- ex) * 2 ^ (ex - ey - e')
                   = Z.abs c * 2 ^ (- e') * (Z.abs b * 2 ^ (- ey))).
    { rewrite Hcb.
      replace (- e') with ((- ex) + (ex - ey - e') + - - ey) by ring.
      replace (- - ey) with ey by ring.
      assert (E1 : 2 ^ (- ex + (ex - ey - e')) * 2 ^ (- ey)
                   = 2 ^ (- ex) * 2 ^ (ex - ey - e') * 2 ^ (- ey))
        by (rewrite Z.pow_add_r by lia; ring).
      assert (E2 : 2 ^ (- ex + (ex - ey - e') + ey) * 2 ^ (- ey)
                   = 2 ^ (- ex + (ex - ey - e'))).
      { rewrite <- Z.pow_add_r by lia. f_equal. ring. }
      nia. }
    destruct (ex - ey - e') as [|p|p] eqn:E.
    - rewrite Z.pow_0_r, Z.mul_1_r in Hgen. exact Hgen.
    - rewrite Z.shiftl_mul_pow2 by lia. exact Hgen.
    - lia. }
  rewrite Hnum, div_eucl_exact by nia.
  rewrite new_location_zero.
  apply (binary_round_aux_int _ _ _ (Z.abs c)); try lia.
  destruct sx, sy; cbn [cond_Zopp xorb] in *; nia.
Qed.

Lemma represents_int_nonzero (y : float) (b : Z) :
  represents_int y b -> b <> 0 -> feqb y fzero = false.
Proof.
  destruct y as [s|s| |s m e]; cbn [represents_int].
  - intros -> H. now elim H.
  - intros [].
  - intros [].
  - intros _ _. destruct s; reflexivity.
Qed.

(** X9.  Division is exact where it can be: for integers [a] and [b]
    strictly between -2^53 and 2^53 with [b] not zero and dividing
    [a], the handler echoes [a] and [b] and answers with the exact
    quotient. *)
Theorem calculate_divide_exact (a b c : Z) :
  Z.abs a < 2 ^ 53 -> Z.abs b < 2 ^ 53 -> b <> 0 -> a = c * b ->
  exists x y r : float,
    calculate (calculation_request (PInt a) (PInt b) (PStr "divide"))
      = ok_response (calculation_body x y (PStr "divide") r)
    /\ has_value x (inject_Z a)
    /\ has_value y (inject_Z b)
    /\ has_value r (inject_Z c).
Proof.
  intros Ha Hb Hb0 Hc.
  destruct (float_of_int_exact a Ha) as (x & Hx & Rx).
  destruct (float_of_int_exact b Hb) as (y & Hy & Ry).
  exists x, y, (fdiv x y). split; [|split; [|split]].
  - unfold calculation_request. rewrite calculate_by_operands.
    unfold operands. cbn [dict_get_or dict_get String.eqb Ascii.eqb Bool.eqb].
    cbn [py_float]. rewrite Hx, Hy. cbn.
    now rewrite (represents_int_nonzero y b Ry Hb0).
  - now apply represents_int_value.
  - now apply represents_int_value.
  - apply represents_int_value. now apply (fdiv_int x y a b c).
Qed.

Lemma calculate_divide_exact_witness :
  exists x y r : float,
    calculate (calculation_request (PInt (-84)) (PInt 12) (PStr "divide"))
      = ok_response (calculation_body x y (PStr "divide") r)
    /\ has_value x (inject_Z (-84))
    /\ has_value y (inject_Z 12)
    /\ has_value r (inject_Z (-7)).
Proof.
  apply (calculate_divide_exact (-84) 12 (-7));
    [reflexivity | reflexivity | discriminate | reflexivity].
Defined.

(** On a body that parsed, a response of the handler has one of two
    shapes: status 200 with the four fields [num1],
    [num2], [operation] and [result], or status 400 with the single
    field [error] holding one of the three messages. *)
Theorem calculate_response_shape (request_data : pyval) (r : Response) :
  calculate request_data = Ok r ->
  (status r = HTTP_200_OK
   /\ exists x y op res, data r = calculation_body x y op res)
  \/ (status r = HTTP_400_BAD_REQUEST
      /\ exists msg,
           In msg [msg_invalid_input; msg_divide_by_zero;
                   msg_invalid_operation]
           /\ data r = error_body msg).
Proof.
  destruct request_data as [| | | | | |d]; try discriminate.
  destruct (calculate_outcomes d)
    as [(x & y & op & res & ->) | [(msg & Hin & ->) | ->]].
  - intros [= <-]. left. split; [reflexivity|]. now exists x, y, op, res.
  - intros [= <-]. right. split; [reflexivity|]. now exists msg.
  - discriminate.
Qed.

(** ** Numeric strings *)

Lemma numeric_digit (c : ascii) : is_digit c = true -> numeric_char c = true.
Proof. unfold numeric_char. now intros ->. Qed.

Lemma numeric_space (c : ascii) : is_space c = true -> numeric_char c = true.
Proof. unfold numeric_char. intros ->. now rewrite orb_true_r. Qed.

Lemma numeric_letter (c : ascii) :
  In (to_lower c) (list_ascii_of_string "einfatyn") -> numeric_char c = true.
Proof.
  intros H. unfold numeric_char.
  assert (E : existsb (Ascii.eqb (to_lower c))
                (list_ascii_of_string "einfatyn") = true).
  { apply existsb_exists. exists (to_lower c). split; [assumption|].
    apply Ascii.eqb_refl. }
  rewrite E. apply orb_true_r.
Qed.

Lemma span_digits_spec (cs ds rest : list ascii) :
  span_digits cs = (ds, rest) -> cs = ds ++ rest /\ numeric ds.
Proof.
  revert ds rest. induction cs as [|c cs IH]; intros ds rest; cbn.
  - intros [= <- <-]. split; [reflexivity | constructor].
  - destruct (is_digit c) eqn:Hc.
    + destruct (span_digits cs) as [ds' tl]. intros [= <- <-].
      destruct (IH ds' tl eq_refl) as [-> Hn]. split; [reflexivity|].
      constructor; [now apply numeric_digit | assumption].
    + intros [= <- <-]. split; [reflexivity | constructor].
Qed.

Lemma take_sign_spec (cs rest : list ascii) (neg : bool) :
  take_sign cs = (neg, rest) ->
  cs = rest \/ exists c, numeric_char c = true /\ cs = c :: rest.
Proof.
  unfold take_sign.
  destruct cs as [|[b0 b1 b2 b3 b4 b5 b6 b7] tl]; [intros [= <- <-]; auto|].
  destruct b0, b1, b2, b3, b4, b5, b6, b7; intros [= <- <-];
    first [ left; reflexivity
          | match goal with
            | |- ?c :: _ = _ \/ _ => right; exists c; split; reflexivity
            end ].
Qed.

Lemma fraction_spec (rest fp rest' : list ascii) :
  match rest with
  | "."%char :: tl => span_digits tl
  | _ => ([], rest)
  end = (fp, rest') ->
  (fp = [] /\ rest' = rest)
  \/ exists tl, rest = "."%char :: tl /\ span_digits tl = (fp, rest').
Proof.
  destruct rest as [|[b0 b1 b2 b3 b4 b5 b6 b7] tl]; [intros [= <- <-]; auto|].
  destruct b0, b1, b2, b3, b4, b5, b6, b7;
    try (intros [= <- <-]; left; split; reflexivity).
  intros H. right. exists tl. split; [reflexivity | assumption].
Qed.

Lemma match_nocase_spec (word cs rest : list ascii) :
  (forall w, In w word -> In w (list_ascii_of_string "einfatyn")) ->
  match_nocase word cs = Some rest ->
  exists pre, cs = pre ++ rest /\ numeric pre.
Proof.
  revert cs. induction word as [|w word IH]; intros cs Hw; cbn.
  - intros [= <-]. exists []. split; [reflexivity | constructor].
  - destruct cs as [|c cs]; [discriminate|].
    destruct (Ascii.eqb (to_lower c) w) eqn:E; [|discriminate].
    intros H. apply Ascii.eqb_eq in E.
    destruct (IH cs (fun w' Hin => Hw w' (or_intror Hin)) H)
      as (pre & -> & Hn).
    exists (c :: pre). split; [reflexivity|].
    constructor; [|assumption].
    apply numeric_letter. rewrite E. apply Hw. now left.
Qed.

Lemma parse_exponent_numeric (cs : list ascii) (ex : Z) :
  parse_exponent cs = Some ex -> numeric cs.
Proof.
  unfold parse_exponent. destruct cs as [|c rest]; [constructor|].
  destruct (Ascii.eqb (to_lower c) "e") eqn:E; [|discriminate].
  apply Ascii.eqb_eq in E.
  destruct (take_sign rest) as [eneg rest1] eqn:Hs.
  destruct (span_digits rest1) as [ds tl] eqn:Hd.
  destruct ds as [|d ds]; [discriminate|].
  destruct tl; [|discriminate]. intros _.
  apply span_digits_spec in Hd. destruct Hd as [-> Hn].
  rewrite app_nil_r in Hs.
  constructor.
  - apply numeric_letter. rewrite E. cbn. auto.
  - apply take_sign_spec in Hs.
    destruct Hs as [-> | (s & Hsn & ->)]; [assumption|].
    now constructor.
Qed.

Lemma parse_decimal_numeric (cs : list ascii) (f : float) :
  parse_decimal cs = Some f -> numeric cs.
Proof.
  unfold parse_decimal.
  destruct (take_sign cs) as [neg body] eqn:Hs.
  destruct (span_digits body) as [ip rest] eqn:Hi.
  destruct (match rest with
            | "."%char :: tl => span_digits tl
            | _ => ([], rest)
            end) as [fp rest'] eqn:Hf.
  destruct (ip ++ fp); [discriminate|].
  destruct (parse_exponent rest') as [ex|] eqn:He; [|discriminate].
  intros _.
  apply parse_exponent_numeric in He.
  apply span_digits_spec in Hi. destruct Hi as [-> Hip].
  assert (Hrest : numeric rest).
  { apply fraction_spec in Hf.
    destruct Hf as [[_ <-] | (tl & -> & Htl)]; [assumption|].
    apply span_digits_spec in Htl. destruct Htl as [-> Hfp].
    constructor; [reflexivity|]. apply Forall_app. now split. }
  assert (Hbody : numeric (ip ++ rest)) by (apply Forall_app; now split).
  apply take_sign_spec in Hs.
  destruct Hs as [-> | (s & Hsn & ->)]; [assumption | now constructor].
Qed.

Lemma parse_inf_or_nan_numeric (cs : list ascii) (f : float) :
  parse_inf_or_nan cs = Some f -> numeric cs.
Proof.
  unfold parse_inf_or_nan.
  destruct (take_sign cs) as [neg body] eqn:Hs.
  assert (Hbody : numeric body -> numeric cs).
  { apply take_sign_spec in Hs.
    destruct Hs as [-> | (s & Hsn & ->)]; [auto | now constructor]. }
  destruct (match_nocase (list_ascii_of_string "inf") body) as [rest|] eqn:E1.
  - apply match_nocase_spec in E1; [|cbn; intuition].
    destruct E1 as (pre & -> & Hpre).
    destruct (match_nocase (list_ascii_of_string "inity") rest)
      as [rest2|] eqn:E2.
    + apply match_nocase_spec in E2; [|cbn; intuition].
      destruct E2 as (pre2 & -> & Hpre2).
      destruct rest2; [|discriminate]. intros _. apply Hbody.
      rewrite app_nil_r. apply Forall_app. now split.
    + destruct rest; [|discriminate]. intros _. apply Hbody.
      now rewrite app_nil_r.
  - destruct (match_nocase (list_ascii_of_string "nan") body)
      as [rest|] eqn:E3; [|discriminate].
    apply match_nocase_spec in E3; [|cbn; intuition].
    destruct E3 as (pre & -> & Hpre).
    destruct rest; [|discriminate]. intros _. apply Hbody.
    now rewrite app_nil_r.
Qed.

Lemma strip_underscores_chars (cs out : list ascii) (prev : option ascii)
    (c : ascii) :
  strip_underscores prev cs = Some out ->
  In c cs -> c = underscore \/ In c out.
Proof.
  revert prev out. induction cs as [|c0 cs IH]; intros prev out;
    [intros _ []|].
  cbn [strip_underscores].
  destruct (Ascii.eqb c0 underscore) eqn:E.
  - apply Ascii.eqb_eq in E.
    destruct (match prev with Some p => is_digit p | None => false end);
      [|discriminate].
    intros H [<- | Hin]; [now left | now apply (IH _ _ H)].
  - destruct (_ && _); [discriminate|].
    destruct (strip_underscores (Some c0) cs) as [out'|] eqn:E'; [|discriminate].
    cbn. intros [= <-] [<- | Hin].
    + right. now left.
    + destruct (IH _ _ E' Hin); [now left | right; now right].
Qed.

Lemma drop_spaces_chars (cs : list ascii) (c : ascii) :
  In c cs -> is_space c = true \/ In c (drop_spaces cs).
Proof.
  induction cs as [|c0 cs IH]; [intros []|].
  cbn [drop_spaces]. destruct (is_space c0) eqn:E.
  - intros [<- | Hin]; [now left | now apply IH].
  - intros H. now right.
Qed.

Lemma strip_chars (cs : list ascii) (c : ascii) :
  In c cs -> is_space c = true \/ In c (strip cs).
Proof.
  intros H. unfold strip.
  destruct (drop_spaces_chars cs c H) as [|H1]; [now left|].
  apply in_rev in H1.
  destruct (drop_spaces_chars _ c H1) as [|H2]; [now left|].
  right. now apply in_rev in H2.
Qed.

(** Every character of a string that [float] converts is a numeric
    character. *)
Lemma float_of_string_numeric (s : string) (x : float) :
  float_of_string s = Ok x -> numeric (list_ascii_of_string s).
Proof.
  unfold float_of_string.
  destruct (strip_underscores None (list_ascii_of_string s)) as [cs|] eqn:Hu;
    [|discriminate].
  intros H.
  assert (Hb : numeric (strip cs)).
  { destruct (parse_decimal (strip cs)) as [f|] eqn:Hd.
    - now apply parse_decimal_numeric in Hd.
    - destruct (parse_inf_or_nan (strip cs)) as [f|] eqn:Hi; [|discriminate].
      now apply parse_inf_or_nan_numeric in Hi. }
  apply Forall_forall. intros c Hc.
  destruct (strip_underscores_chars _ _ _ c Hu Hc) as [-> | Hin];
    [reflexivity|].
  destruct (strip_chars cs c Hin) as [Hsp | Hin'];
    [now apply numeric_space|].
  unfold numeric in Hb. rewrite Forall_forall in Hb. now apply Hb.
Qed.

(** X15.  One character that is not numeric spoils a string: a
    [num1] holding an ASCII character other than a digit, white space,
    a sign, the point, the underscore or a letter of [e], [infinity]
    and [nan], such as a comma, a percent sign or the [x] of a
    hexadecimal numeral, is answered with the invalid-input message;
    so is such a [num2] once [num1] converts. *)
Theorem calculate_rejects_foreign_character (d : dict) (s : string)
    (c : ascii) :
  In c (list_ascii_of_string s) ->
  (nat_of_ascii c < 128)%nat ->
  numeric_char c = false ->
  (dict_get d "num1" = Some (PStr s) ->
     calculate (PDict d) = bad_request msg_invalid_input)
  /\ (dict_get d "num2" = Some (PStr s) ->
      forall x, py_float (dict_get_or d "num1" (PInt 0)) = Ok x ->
      calculate (PDict d) = bad_request msg_invalid_input).
Proof.
  intros Hin _ Hc.
  assert (Hs : float_of_string s = Raise ValueError).
  { destruct (float_of_string_outcomes s) as [[x Hx] | H]; [|assumption].
    apply float_of_string_numeric in Hx.
    unfold numeric in Hx. rewrite Forall_forall in Hx.
    specialize (Hx c Hin). congruence. }
  split.
  - intros Hg. now apply (calculate_num1_not_numeric d s).
  - intros Hg x Hx. apply (calculate_num2_not_numeric d s); auto.
    rewrite Hx. discriminate.
Qed.

Lemma calculate_rejects_foreign_character_witness :
  calculate (calculation_request (PStr "1,000") (PInt 5) (PStr "add"))
    = bad_request msg_invalid_input
  /\ calculate (calculation_request (PInt 10) (PStr "0x1f") (PStr "add"))
    = bad_request msg_invalid_input.
Proof.
  split.
  - apply (proj1 (calculate_rejects_foreign_character
                    [("num1", PStr "1,000"); ("num2", PInt 5);
                     ("operation", PStr "add")] "1,000" ","%char
                    ltac:(cbn; auto) ltac:(cbn; lia) eq_refl)).
    reflexivity.
  - apply (proj2 (calculate_rejects_foreign_character
                    [("num1", PInt 10); ("num2", PStr "0x1f");
                     ("operation", PStr "add")] "0x1f" "x"%char
                    ltac:(cbn; auto) ltac:(cbn; lia) eq_refl)
             eq_refl float_ten eq_refl).
Defined.

(** ** The health view *)

Lemma digit_char_spec (d : Z) :
  0 <= d <= 9 -> is_digit (digit_char d) = true /\ digit_val (digit_char d) = d.
Proof.
  intros H.
  assert (Hd : d = 0 \/ d = 1 \/ d = 2 \/ d = 3 \/ d = 4 \/ d = 5 \/ d = 6
               \/ d = 7 \/ d = 8 \/ d = 9) by lia.
  destruct Hd as [->|[->|[->|[->|[->|[->|[->|[->|[->| ->]]]]]]]]];
    split; reflexivity.
Qed.

Lemma read_zero_padded (w : nat) (n acc : Z) (rest : list ascii) :
  0 <= n < 10 ^ Z.of_nat w ->
  read_number w acc (zero_padded w n ++ rest)
    = Some (acc * 10 ^ Z.of_nat w + n, rest).
Proof.
  revert n acc. induction w as [|w IH]; intros n acc Hn.
  - cbn in *. f_equal. f_equal. lia.
  - rewrite Nat2Z.inj_succ, Z.pow_succ_r in Hn by lia.
    assert (Hp : 0 < 10 ^ Z.of_nat w) by (apply Z.pow_pos_nonneg; lia).
    assert (Hq : 0 <= n / 10 ^ Z.of_nat w <= 9).
    { split; [apply Z.div_pos; lia|].
      assert (n / 10 ^ Z.of_nat w < 10)
        by (apply Z.div_lt_upper_bound; lia). lia. }
    cbn [zero_padded read_number app].
    destruct (digit_char_spec _ Hq) as [-> ->].
    rewrite IH by (apply Z.mod_pos_bound; lia).
    f_equal. f_equal.
    rewrite Nat2Z.inj_succ, Z.pow_succ_r by lia.
    pose proof (Z.div_mod n (10 ^ Z.of_nat w) ltac:(lia)). nia.
Qed.

Lemma read_field_zero_padded (w : nat) (sep : ascii) (n : Z)
    (rest : list ascii) :
  0 <= n < 10 ^ Z.of_nat w ->
  read_field w sep (zero_padded w n ++ sep :: rest) = Some (n, rest).
Proof.
  intros Hn. unfold read_field. rewrite read_zero_padded by assumption.
  cbn [expect]. rewrite Ascii.eqb_refl. f_equal.
Qed.

Lemma parse_isoformat_isoformat (t : datetime) :
  datetime_in_range t -> parse_isoformat (isoformat t) = Some t.
Proof.
  intros (Hy & Hmo & Hd & Hh & Hmi & Hs & Hu).
  unfold parse_isoformat, isoformat.
  rewrite list_ascii_of_string_of_list_ascii.
  rewrite !read_field_zero_padded by (cbn; lia).
  destruct t as [y mo d h mi s us]. cbn [year month day hour minute second
    microsecond] in *.
  destruct (Z.eqb_spec us 0) as [-> | Hne].
  - rewrite read_zero_padded by (cbn; lia). reflexivity.
  - rewrite read_zero_padded by (cbn; lia). cbn [expect].
    rewrite Ascii.eqb_refl.
    rewrite <- (app_nil_r (zero_padded 6 us)).
    rewrite read_zero_padded by (cbn; lia). reflexivity.
Qed.

(** X10.  The timestamp of the health answer can be read back: the
    answer has status 200, says "healthy", and its timestamp parses to
    the very clock reading the handler took, so that two readings
    never share a timestamp. *)
Theorem health_check_timestamp (now : datetime) :
  datetime_in_range now ->
  exists ts : string,
    health_check now
      = Ok (mkResponse HTTP_200_OK
              (PDict [("status", PStr "healthy");
                      ("message", PStr msg_healthy);
                      ("timestamp", PStr ts)]))
    /\ parse_isoformat ts = Some now
    /\ forall other : datetime,
         datetime_in_range other ->
         health_check other = health_check now -> other = now.
Proof.
  intros Hnow. exists (isoformat now). split; [reflexivity|]. split.
  - now apply parse_isoformat_isoformat.
  - intros other Hother Heq.
    assert (Hts : isoformat other = isoformat now)
      by (unfold health_check in Heq; congruence).
    apply parse_isoformat_isoformat in Hother, Hnow.
    rewrite Hts in Hother. congruence.
Qed.

Lemma health_check_timestamp_witness :
  exists ts : string,
    health_check (mkDatetime 2024 2 29 23 59 59 4)
      = Ok (mkResponse HTTP_200_OK
              (PDict [("status", PStr "healthy");
                      ("message", PStr msg_healthy);
                      ("timestamp", PStr ts)]))
    /\ parse_isoformat ts = Some (mkDatetime 2024 2 29 23 59 59 4)
    /\ forall other : datetime,
         datetime_in_range other ->
         health_check other = health_check (mkDatetime 2024 2 29 23 59 59 4) ->
         other = mkDatetime 2024 2 29 23 59 59 4.
Proof.
  apply (health_check_timestamp (mkDatetime 2024 2 29 23 59 59 4)).
  unfold datetime_in_range. cbn. lia.
Defined.

Lemma length_zero_padded (w : nat) (n : Z) :
  List.length (zero_padded w n) = w.
Proof.
  revert n. induction w as [|w IH]; intros n; cbn; [reflexivity|].
  now rewrite IH.
Qed.

Lemma length_string_of_list_ascii (l : list ascii) :
  String.length (string_of_list_ascii l) = List.length l.
Proof. induction l; cbn; congruence. Qed.

Lemma isoformat_length (t : datetime) :
  String.length (isoformat t)
    = if microsecond t =? 0 then 19%nat else 26%nat.
Proof.
  unfold isoformat. rewrite length_string_of_list_ascii.
  repeat (rewrite ?length_app, ?length_zero_padded; cbn [List.length]).
  destruct (microsecond t =? 0); cbn [List.length];
    rewrite ?length_zero_padded; reflexivity.
Qed.

(** X11.  The timestamp of the health answer has two shapes: 19
    characters when the clock reads a whole second, where [isoformat]
    leaves the fraction out, and 26 characters otherwise. *)
Theorem health_check_timestamp_length (now : datetime) :
  exists ts : string,
    health_check now
      = Ok (mkResponse HTTP_200_OK
              (PDict [("status", PStr "healthy");
                      ("message", PStr msg_healthy);
                      ("timestamp", PStr ts)]))
    /\ String.length ts = if microsecond now =? 0 then 19%nat else 26%nat.
Proof.
  exists (isoformat now). split; [reflexivity | apply isoformat_length].
Qed.

(** ** The routes *)

(** First-match resolution shadows no pattern whose route is not
    taken by an earlier one. *)
Lemma resolve_in_reachable (patterns : list urlpattern) (pat : urlpattern) :
  NoDup (map route patterns) -> In pat patterns ->
  resolve_in patterns (route pat) = Some (callback pat).
Proof.
  induction patterns as [|q rest IH]; intros Hnd Hin; [contradiction|].
  cbn [map] in Hnd. inversion Hnd as [|? ? Hq Hrest]; subst.
  cbn [resolve_in]. destruct Hin as [-> | Hin].
  - now rewrite String.eqb_refl.
  - destruct (String.eqb (route q) (route pat)) eqn:E.
    + apply String.eqb_eq in E. elim Hq. rewrite E. now apply in_map.
    + now apply IH.
Qed.

Lemma resolve_in_sound (patterns : list urlpattern) (p : string) (v : view) :
  resolve_in patterns p = Some v ->
  exists pat, In pat patterns /\ route pat = p /\ callback pat = v.
Proof.
  induction patterns as [|q rest IH]; cbn [resolve_in]; [discriminate|].
  destruct (String.eqb (route q) p) eqn:E.
  - intros [= <-]. apply String.eqb_eq in E. exists q. cbn. auto.
  - intros H. destruct (IH H) as (pat & Hin & Hr & Hc).
    exists pat. cbn. auto.
Qed.

Lemma urlpatterns_routes_distinct : NoDup (map route urlpatterns).
Proof.
  cbn. repeat constructor; cbn; intuition discriminate.
Qed.

(** X12.  A path resolves to a view exactly when the table routes it
    there: the four routes are distinct, so the order of the table
    decides nothing and each of the four views is served, and every
    other path, such as a route without its final slash or in capital
    letters, is not found. *)
Theorem resolve_iff (p : string) (v : view) :
  resolve p = Some v <->
  (p = "health/" /\ v = view_health_check)
  \/ (p = "calculate/" /\ v = view_calculate)
  \/ (p = "hello/" /\ v = view_hello_async)
  \/ (p = "process/" /\ v = view_process_data).
Proof.
  split.
  - intros H. apply resolve_in_sound in H.
    destruct H as (pat & Hin & <- & <-). cbn in Hin.
    destruct Hin as [<- | [<- | [<- | [<- | []]]]]; cbn; auto.
  - intros [[-> ->] | [[-> ->] | [[-> ->] | [-> ->]]]]; reflexivity.
Qed.

(** X13.  Resolution does not depend on the order of the table: any
    rearrangement of the four patterns resolves every path as the
    table does. *)
Theorem resolve_order_irrelevant (patterns : list urlpattern) (p : string) :
  (forall pat, In pat patterns <-> In pat urlpatterns) ->
  NoDup (map route patterns) ->
  resolve_in patterns p = resolve p.
Proof.
  intros Hsame Hnd.
  destruct (resolve_in patterns p) as [v|] eqn:E1.
  - apply resolve_in_sound in E1. destruct E1 as (pat & Hin & <- & <-).
    symmetry. apply resolve_in_reachable.
    + exact urlpatterns_routes_distinct.
    + now apply Hsame.
  - destruct (resolve p) as [v|] eqn:E2; [|reflexivity].
    apply resolve_in_sound in E2. destruct E2 as (pat & Hin & <- & <-).
    rewrite resolve_in_reachable in E1; [discriminate | assumption |].
    now apply Hsame.
Qed.

Lemma resolve_order_irrelevant_witness :
  resolve_in (rev urlpatterns) "calculate/" = resolve "calculate/".
Proof.
  apply (resolve_order_irrelevant (rev urlpatterns) "calculate/").
  - intros pat. symmetry. apply in_rev.
  - cbn. repeat constructor; cbn; intuition discriminate.
Defined.

(** X14.  A name reverses to a route that resolves to the view the
    name was given to, and only the two named routes reverse at
    all. *)
Theorem reverse_resolve (n r : string) :
  reverse n = Some r <->
  (n = "health-check" /\ r = "health/"
   /\ resolve r = Some view_health_check)
  \/ (n = "calculate" /\ r = "calculate/"
      /\ resolve r = Some view_calculate).
Proof.
  unfold reverse. cbn [reverse_in urlpatterns name route]. split.
  - destruct (String.eqb "health-check" n) eqn:E1.
    { apply String.eqb_eq in E1. intros [= <-]. left. auto. }
    destruct (String.eqb "calculate" n) eqn:E2.
    { apply String.eqb_eq in E2. intros [= <-]. right. auto. }
    discriminate.
  - intros [(-> & -> & _) | (-> & -> & _)]; reflexivity.
Qed.

(** ** The calculator view from the evaluation of [request.data] *)

Lemma calculate_request_parsed (request_data : pyval) :
  calculate_request (Ok request_data) = calculate request_data.
Proof. reflexivity. Qed.

Lemma calculate_request_refused (e : exn) :
  calculate_request (Raise e)
    = if catches [ValueError; TypeError] e
      then bad_request msg_invalid_input else Raise e.
Proof. reflexivity. Qed.

(** C2.  With an integer too large for a double in [num1] the
    operation divide gets no answer: [float] raises [OverflowError] on
    [num1], the handler does not catch it, and the exception leaves it
    where the divide-by-zero answer was due for the divisor 0, and the
    quotient for the divisor 5. *)
Theorem calculate_overflow_precedes_divide :
  py_float (PInt 0) = Ok fzero
  /\ calculate (calculation_request (PInt huge_int) (PInt 0) (PStr "divide"))
     = Raise OverflowError
  /\ py_float (PInt 5) = Ok float_five
  /\ feqb float_five fzero = false
  /\ calculate (calculation_request (PInt huge_int) (PInt 5) (PStr "divide"))
     = Raise OverflowError.
Proof.
  split; [|split; [|split; [|split]]]; vm_compute; reflexivity.
Qed.

(** C4.  With an integer too large for a double in [num1] an unknown
    operation gets no answer: [float] raises [OverflowError] on [num1]
    before the operation is looked at, the handler does not catch it,
    and the exception leaves it where the invalid-operation answer was
    due. *)
Theorem calculate_overflow_precedes_invalid_operation :
  ~ In "power" ["add"; "subtract"; "multiply"; "divide"]
  /\ py_float (PInt 5) = Ok float_five
  /\ calculate (calculation_request (PInt huge_int) (PInt 5) (PStr "power"))
     = Raise OverflowError.
Proof.
  split; [|split].
  - cbn. intros [H|[H|[H|[H|[]]]]]; discriminate H.
  - vm_compute. reflexivity.
  - vm_compute. reflexivity.
Qed.


(** X16.  A response that the function returns has one of two shapes,
    whatever evaluating [request.data] gives: status 200 with the four
    fields [num1], [num2], [operation] and [result], or status 400
    with the single field [error] holding one of the three messages.
    When the body does not parse the function returns no response:
    the exception leaves it, and the answer is the framework's. *)
Theorem calculate_request_response_shape (request_data : result pyval)
    (r : Response) :
  calculate_request request_data = Ok r ->
  ((status r = HTTP_200_OK
    /\ exists x y op res, data r = calculation_body x y op res)
   \/ (status r = HTTP_400_BAD_REQUEST
       /\ exists msg,
            In msg [msg_invalid_input; msg_divide_by_zero;
                    msg_invalid_operation]
            /\ data r = error_body msg))
  /\ request_data <> Raise ParseError
  /\ request_data <> Raise UnsupportedMediaType.
Proof.
  destruct request_data as [v|e0].
  - rewrite calculate_request_parsed. intros H.
    split; [now apply (calculate_response_shape v) | split; discriminate].
  - rewrite calculate_request_refused.
    destruct (catches [ValueError; TypeError] e0) eqn:Hc; [|discriminate].
    intros [= <-]. split; [|split].
    + right. split; [reflexivity|]. exists msg_invalid_input.
      split; [now left | reflexivity].
    + intros [= ->]. discriminate Hc.
    + intros [= ->]. discriminate Hc.
Qed.

Lemma calculate_request_response_shape_witness :
  ((status (mkResponse HTTP_400_BAD_REQUEST (error_body msg_divide_by_zero))
      = HTTP_200_OK
    /\ exists x y op res,
         data (mkResponse HTTP_400_BAD_REQUEST (error_body msg_divide_by_zero))
           = calculation_body x y op res)
   \/ (status (mkResponse HTTP_400_BAD_REQUEST (error_body msg_divide_by_zero))
         = HTTP_400_BAD_REQUEST
       /\ exists msg,
            In msg [msg_invalid_input; msg_divide_by_zero;
                    msg_invalid_operation]
            /\ data (mkResponse HTTP_400_BAD_REQUEST
                       (error_body msg_divide_by_zero))
               = error_body msg))
  /\ Ok (calculation_request (PInt 10) (PInt 0) (PStr "divide"))
     <> Raise ParseError
  /\ Ok (calculation_request (PInt 10) (PInt 0) (PStr "divide"))
     <> Raise UnsupportedMediaType.
Proof.
  exact (calculate_request_response_shape
           (Ok (calculation_request (PInt 10) (PInt 0) (PStr "divide")))
           (mkResponse HTTP_400_BAD_REQUEST (error_body msg_divide_by_zero))
           eq_refl).
Defined.

(** A body that does not parse. *)
Example scenario_parse_error :
  calculate_request (Raise ParseError) = Raise ParseError
  /\ calculate_request (Raise UnsupportedMediaType)
     = Raise UnsupportedMediaType.
Proof. split; reflexivity. Qed.
